(** * channels.generic.websockets: a shallow embedding

    The WebSocket consumers of [channels/generic/websockets.py]
    ([WebsocketConsumer], [JsonWebsocketConsumer], [WebsocketDemultiplexer])
    as Rocq functions, and the properties of the dispatch and
    demultiplexing engine proved about them.

    Python values are an inductive universe, dictionaries are association
    lists in insertion order, and every method runs in a small monad that
    either returns or raises and records, in order, the calls it makes to
    its collaborators (channel layer, group service, JSON decoder, user
    callbacks). *)

From Stdlib Require Import List String Ascii ZArith Bool Lia Permutation.
From Stdlib Require Import DecimalString DecimalZ DecimalPos.
Import ListNotations.
Local Open Scope string_scope.
Set Warnings "-register-all".
Local Open Scope list_scope.

(** ** Python values

    The values the consumers handle: what a frame or a message carries and
    what JSON text decodes to.  Numbers are Python integers; floating-point
    numbers are left out. *)

Inductive value : Type :=
| VNone
| VBool (b : bool)
| VInt (n : Z)
| VStr (s : string)
| VBytes (b : list Byte.byte)
| VList (l : list value)
| VDict (d : list (string * value)).

(** A [dict] with string keys, in insertion order. *)
Definition dict := list (string * value).

(** [key in d] *)
Fixpoint dict_mem (d : dict) (key : string) : bool :=
  match d with
  | [] => false
  | (k, _) :: d' => if String.eqb k key then true else dict_mem d' key
  end.

(** [d.get(key)]: [None] stands for a missing key. *)
Fixpoint dict_get (d : dict) (key : string) : option value :=
  match d with
  | [] => None
  | (k, v) :: d' => if String.eqb k key then Some v else dict_get d' key
  end.

(** [d[key] = v]: an existing key keeps its position, a new one goes last. *)
Fixpoint dict_set (d : dict) (key : string) (v : value) : dict :=
  match d with
  | [] => [(key, v)]
  | (k, w) :: d' =>
      if String.eqb k key then (k, v) :: d' else (k, w) :: dict_set d' key v
  end.

Definition dict_keys (d : dict) : list string := map fst d.

(** [isinstance(v, dict)] *)
Definition is_dict (v : value) : bool :=
  match v with VDict _ => true | _ => false end.

(** [v is not None] *)
Definition is_not_none (v : value) : bool :=
  match v with VNone => false | _ => true end.

(** ** Messages *)

(** Modelled from the spec: [channels.message.Message] is not part of the
    sources at hand.  A message is the event delivered by the transport: the
    name of the channel it arrived on and a content dictionary
    ([path], [text], [bytes], [reply_channel], [order]). *)
Record message : Type := Message {
  channel : string;
  content : dict
}.

(** ** Exceptions, calls to collaborators, and the method monad *)

Inductive exn : Type :=
| ValueError (msg : string)
| KeyError (key : value)
| TypeError (msg : string)
| AttributeError (msg : string)
| JSONDecodeError (doc : string).

(** What a method does to the outside world.  A channel is named by the
    value the code passes ([None] when the message has no reply channel). *)
Inductive event : Type :=
| ChannelSend (channel : string) (content : value)
| ReplySend (reply_channel : string) (frame : value)
| GroupAdd (group : string) (member : option string)
| GroupDiscard (group : string) (member : option string)
| GroupSend (group : string) (frame : value)
| JsonLoads (arg : value)
| UserConnect (m : message) (kwargs : dict)
| UserReceive (text bytes : value) (kwargs : dict)
| UserReceiveJson (content : value) (kwargs : dict)
| UserDisconnect (m : message) (kwargs : dict).

Inductive outcome (A : Type) : Type :=
| Ok (a : A)
| Raise (e : exn).
Arguments Ok {A} a.
Arguments Raise {A} e.

(** A computation: how it ended and the calls it made up to that point. *)
Definition M (A : Type) : Type := outcome A * list event.

Definition ret {A} (a : A) : M A := (Ok a, []).
Definition raise {A} (e : exn) : M A := (Raise e, []).
Definition emit (ev : event) : M unit := (Ok tt, [ev]).

Definition bind {A B} (c : M A) (k : A -> M B) : M B :=
  match c with
  | (Ok a, t) => let '(r, t') := k a in (r, t ++ t')
  | (Raise e, t) => (Raise e, t)
  end.

Notation "x <- c ;; k" := (bind c (fun x => k))
  (at level 61, c at next level, right associativity).
Notation "c ;;; k" := (bind c (fun _ => k))
  (at level 61, right associativity).

Definition result {A} (c : M A) : outcome A := fst c.
Definition trace {A} (c : M A) : list event := snd c.

(** [for x in xs: body(x)] *)
Fixpoint for_each {A} (xs : list A) (body : A -> M unit) : M unit :=
  match xs with
  | [] => ret tt
  | x :: xs' => body x ;;; for_each xs' body
  end.

(** [d[key]] *)
Definition dict_getitem (d : dict) (key : string) : M value :=
  match dict_get d key with
  | Some v => ret v
  | None => raise (KeyError (VStr key))
  end.

(** ** Reading a message *)

(** Modelled from the spec: [key in message] of the absent [Message] class
    asks the content. *)
Definition message_contains (m : message) (key : string) : bool :=
  dict_mem (content m) key.

(** Modelled from the spec: [message[key]] of the absent [Message] class
    reads the content. *)
Definition message_getitem (m : message) (key : string) : M value :=
  dict_getitem (content m) key.

(** Modelled from the spec: [message.reply_channel] of the absent [Message]
    class is the reply sink of the connection, the channel named by the
    content's [reply_channel], or [None] when there is none. *)
Definition reply_channel (m : message) : option string :=
  match dict_get (content m) "reply_channel" with
  | Some (VStr name) => if String.eqb name "" then None else Some name
  | _ => None
  end.

(** [message.reply_channel.send(frame)] *)
Definition reply_channel_send (m : message) (frame : value) : M unit :=
  match reply_channel m with
  | Some name => emit (ReplySend name frame)
  | None => raise (AttributeError "'NoneType' object has no attribute 'send'")
  end.

(** ** The JSON library

    [json.dumps] and [json.loads] belong to the host language, not to the
    consumers; they are a parameter of everything that encodes or decodes.
    [dumps] answers [None] for a value the encoder cannot serialise, [loads]
    answers [None] for malformed text. *)
Inductive encoder : Type := JSONEncoder | DjangoJSONEncoder.

Record json_library : Type := JsonLibrary {
  dumps : encoder -> value -> option string;
  loads : string -> option value
}.

(** [json.dumps(v, cls=enc)] *)
Definition json_dumps (J : json_library) (enc : encoder) (v : value) : M string :=
  match dumps J enc v with
  | Some text => ret text
  | None => raise (TypeError "Object is not JSON serializable")
  end.

(** [json.loads(v)] *)
Definition json_loads (J : json_library) (v : value) : M value :=
  emit (JsonLoads v) ;;;
  match v with
  | VStr text =>
      match loads J text with
      | Some r => ret r
      | None => raise (JSONDecodeError text)
      end
  | _ => raise (TypeError "the JSON object must be str")
  end.

(** Values that JSON represents: no byte strings, and no object with a
    repeated key. *)
Fixpoint json_representable (v : value) : Prop :=
  match v with
  | VBytes _ => False
  | VList l =>
      (fix all (l : list value) : Prop :=
         match l with
         | [] => True
         | x :: l' => json_representable x /\ all l'
         end) l
  | VDict d =>
      NoDup (dict_keys d) /\
      (fix all (d : list (string * value)) : Prop :=
         match d with
         | [] => True
         | (_, x) :: d' => json_representable x /\ all d'
         end) d
  | _ => True
  end.

(** The library capability the consumers rely on: decoding what was encoded
    gives the value back. *)
Definition reliable (J : json_library) : Prop :=
  forall enc v, json_representable v ->
    exists text, dumps J enc v = Some text /\ loads J text = Some v.

(** ** Consumer classes and instances *)

(** The class attributes a concrete consumer type configures.
    [channel_session] and [channel_session_user] are inherited from
    [BaseConsumer]; [connection_groups] is the overridable method (a function
    of the routing keyword arguments); [mapping] is only read by the
    demultiplexer. *)
Record consumer_class : Type := ConsumerClass {
  http_user : bool;
  slight_ordering : bool;
  strict_ordering : bool;
  channel_session : bool;
  channel_session_user : bool;
  connection_groups : dict -> list string;
  mapping : list (string * string)
}.

(** The attribute values written in the class bodies. *)
Definition default_class : consumer_class := {|
  http_user := false;
  slight_ordering := false;
  strict_ordering := false;
  channel_session := false;
  channel_session_user := false;
  connection_groups := fun _ => [];
  mapping := []
|}.

(** A consumer instance: one is built per dispatched message. *)
Record consumer : Type := Consumer {
  cls : consumer_class;
  self_message : message;
  self_kwargs : dict;
  self_path : option value;
  self_channel_session_user : bool
}.

(** What [get_handler] returns: a bound method, possibly decorated. *)
Inductive handler : Type :=
| BoundMethod (name : string)
| channel_session_ (h : handler)
| channel_session_user_ (h : handler)
| channel_session_user_from_http (h : handler)
| enforce_ordering (h : handler) (slight : bool).

Module BaseConsumer.

(** Modelled from the spec: [BaseConsumer.__init__] of
    [channels/generic/base.py], which is not part of the sources at hand;
    the instance keeps the message and the keyword arguments it was
    dispatched with. *)
Definition init (c : consumer_class) (m : message) (kwargs : dict) : consumer :=
  {| cls := c; self_message := m; self_kwargs := kwargs;
     self_path := None;
     self_channel_session_user := channel_session_user c |}.

(** Modelled from the spec: [BaseConsumer.get_handler] of
    [channels/generic/base.py], which is not part of the sources at hand;
    the handler is selected by the kind of event through the class's
    [method_mapping], and the session attachment, when enabled, is
    wrapped around it. *)
Definition get_handler (method_mapping : list (string * string))
    (self : consumer) (m : message) : outcome handler :=
  match find (fun kv => String.eqb (fst kv) (channel m)) method_mapping with
  | None => Raise (KeyError (VStr (channel m)))
  | Some (_, name) =>
      let h := BoundMethod name in
      if self_channel_session_user self then Ok (channel_session_user_ h)
      else if channel_session (cls self) then Ok (channel_session_ h)
      else Ok h
  end.

End BaseConsumer.

Module WebsocketConsumer.

Definition method_mapping : list (string * string) :=
  [ ("websocket.connect", "raw_connect");
    ("websocket.receive", "raw_receive");
    ("websocket.disconnect", "raw_disconnect") ].

(** [get_handler] assigns to [self]: the instance after the call is
    returned next to the outcome, also when the call raises. *)
Definition get_handler (self : consumer) (m : message) : consumer * outcome handler :=
  let self1 :=
    if http_user (cls self)
    then {| cls := cls self; self_message := self_message self;
            self_kwargs := self_kwargs self; self_path := self_path self;
            self_channel_session_user := true |}
    else self in
  match dict_get (content m) "path" with
  | None => (self1, Raise (KeyError (VStr "path")))
  | Some p =>
      let self2 :=
        {| cls := cls self1; self_message := self_message self1;
           self_kwargs := self_kwargs self1; self_path := Some p;
           self_channel_session_user := self_channel_session_user self1 |} in
      match BaseConsumer.get_handler method_mapping self2 m with
      | Raise e => (self2, Raise e)
      | Ok h0 =>
          let h :=
            if http_user (cls self2) then channel_session_user_from_http h0
            else h0 in
          if strict_ordering (cls self2) then (self2, Ok (enforce_ordering h false))
          else if slight_ordering (cls self2) then (self2, Ok (enforce_ordering h true))
          else (self2, Ok h)
      end
  end.

(** User-level callbacks: the class bodies are [pass]; the call is
    recorded. *)
Definition connect (self : consumer) (m : message) (kwargs : dict) : M unit :=
  emit (UserConnect m kwargs).

Definition receive (self : consumer) (text bytes : value) (kwargs : dict) : M unit :=
  emit (UserReceive text bytes kwargs).

Definition disconnect (self : consumer) (m : message) (kwargs : dict) : M unit :=
  emit (UserDisconnect m kwargs).

Definition raw_connect (self : consumer) (m : message) (kwargs : dict) : M unit :=
  for_each (connection_groups (cls self) kwargs)
    (fun group => emit (GroupAdd group (reply_channel m))) ;;;
  connect self m kwargs.

Definition raw_receive (self : consumer) (m : message) (kwargs : dict) : M unit :=
  if message_contains m "text" then
    text <- message_getitem m "text" ;;
    receive self text VNone kwargs
  else
    bytes <- message_getitem m "bytes" ;;
    receive self VNone bytes kwargs.

Definition send (self : consumer) (text bytes : value) (close : bool) : M unit :=
  let message0 : dict := [] in
  let message1 :=
    if close then dict_set message0 "close" (VBool true) else message0 in
  message2 <-
    (if is_not_none text then ret (dict_set message1 "text" text)
     else if is_not_none bytes then ret (dict_set message1 "bytes" bytes)
     else raise (ValueError "You must pass text or bytes")) ;;
  reply_channel_send (self_message self) (VDict message2).

Definition group_send (name : string) (text bytes : value) (close : bool) : M unit :=
  let message0 : dict := [] in
  let message1 :=
    if close then dict_set message0 "close" (VBool true) else message0 in
  message2 <-
    (if is_not_none text then ret (dict_set message1 "text" text)
     else if is_not_none bytes then ret (dict_set message1 "bytes" bytes)
     else raise (ValueError "You must pass text or bytes")) ;;
  emit (GroupSend name (VDict message2)).

Definition close (self : consumer) : M unit :=
  reply_channel_send (self_message self) (VDict [("close", VBool true)]).

Definition raw_disconnect (self : consumer) (m : message) (kwargs : dict) : M unit :=
  for_each (connection_groups (cls self) kwargs)
    (fun group => emit (GroupDiscard group (reply_channel m))) ;;;
  disconnect self m kwargs.

End WebsocketConsumer.

Module JsonWebsocketConsumer.

(** User-level callback: the class body is [pass]; the call is recorded. *)
Definition receive (self : consumer) (content : value) (kwargs : dict) : M unit :=
  emit (UserReceiveJson content kwargs).

(** [self.receive] is looked up on the instance: [receive_method] is the
    class's own [receive] or the one a subclass overrides it with. *)
Definition raw_receive (J : json_library)
    (receive_method : consumer -> value -> dict -> M unit)
    (self : consumer) (m : message) (kwargs : dict) : M unit :=
  if message_contains m "text" then
    text <- message_getitem m "text" ;;
    content <- json_loads J text ;;
    receive_method self content kwargs
  else
    raise (ValueError "No text section for incoming WebSocket frame!").

Definition send (J : json_library) (self : consumer) (content : value)
    (close : bool) : M unit :=
  text <- json_dumps J JSONEncoder content ;;
  WebsocketConsumer.send self (VStr text) VNone close.

Definition group_send (J : json_library) (name : string) (content : value)
    (close : bool) : M unit :=
  text <- json_dumps J JSONEncoder content ;;
  WebsocketConsumer.group_send name (VStr text) VNone close.

End JsonWebsocketConsumer.

Module WebsocketDemultiplexer.

(** [stream in self.mapping]: the keys of the mapping are stream names;
    looking up a list or a dict raises, as they cannot be hashed. *)
Definition mapping_contains (mp : list (string * string)) (stream : value) : M bool :=
  match stream with
  | VStr s => ret (existsb (fun kv => String.eqb (fst kv) s) mp)
  | VList _ => raise (TypeError "unhashable type: 'list'")
  | VDict _ => raise (TypeError "unhashable type: 'dict'")
  | _ => ret false
  end.

(** [self.mapping[stream]] *)
Definition mapping_getitem (mp : list (string * string)) (stream : value) : M string :=
  match stream with
  | VStr s =>
      match find (fun kv => String.eqb (fst kv) s) mp with
      | Some (_, destination) => ret destination
      | None => raise (KeyError stream)
      end
  | VList _ => raise (TypeError "unhashable type: 'list'")
  | VDict _ => raise (TypeError "unhashable type: 'dict'")
  | _ => raise (KeyError stream)
  end.

Definition receive (self : consumer) (content : value) (kwargs : dict) : M unit :=
  match content with
  | VDict c =>
      if dict_mem c "stream" && dict_mem c "payload" then
        stream <- dict_getitem c "stream" ;;
        mapped <- mapping_contains (mapping (cls self)) stream ;;
        if mapped : bool then
          payload <- dict_getitem c "payload" ;;
          match payload with
          | VDict p =>
              rc <- message_getitem (self_message self) "reply_channel" ;;
              let p' := dict_set p "reply_channel" rc in
              destination <- mapping_getitem (mapping (cls self)) stream ;;
              emit (ChannelSend destination (VDict p'))
          | _ => raise (ValueError "Multiplexed frame payload is not a dict")
          end
        else
          raise (ValueError "Invalid multiplexed frame received (stream not mapped)")
      else
        raise (ValueError "Invalid multiplexed frame received (no channel/payload key)")
  | _ =>
      raise (ValueError "Invalid multiplexed frame received (no channel/payload key)")
  end.

(** The demultiplexer inherits [raw_receive] from the JSON consumer and
    overrides the [receive] it calls. *)
Definition raw_receive (J : json_library) : consumer -> message -> dict -> M unit :=
  JsonWebsocketConsumer.raw_receive J receive.

Definition encode (J : json_library) (stream payload : value) : M value :=
  text <- json_dumps J DjangoJSONEncoder
            (VDict [("stream", stream); ("payload", payload)]) ;;
  ret (VDict [("text", VStr text)]).

Definition send (J : json_library) (self : consumer) (stream payload : value) : M unit :=
  frame <- encode J stream payload ;;
  reply_channel_send (self_message self) frame.

Definition group_send (J : json_library) (name : string) (stream payload : value)
    (close : bool) : M unit :=
  frame <- encode J stream payload ;;
  let frame' :=
    match frame with
    | VDict f => if close then VDict (dict_set f "close" (VBool true)) else frame
    | _ => frame
    end in
  emit (GroupSend name frame').

End WebsocketDemultiplexer.

(** ** The group service *)

Module Groups.

(** Modelled from the spec: the group registry ([channels.channel.Group] and
    the channel layer behind it) is not part of the sources at hand; it is a
    set of members per group name, here the answer to whether a channel is a
    member of a group. *)
Definition registry : Type := string -> string -> bool.

Definition empty : registry := fun _ _ => false.

(** Modelled from the spec: [Group(group).add(member)] of the absent group
    service; joining twice does not duplicate membership. *)
Definition add (r : registry) (group member : string) : registry :=
  fun g c => if String.eqb g group && String.eqb c member then true else r g c.

(** Modelled from the spec: [Group(group).discard(member)] of the absent
    group service; leaving a group one is not a member of changes nothing. *)
Definition discard (r : registry) (group member : string) : registry :=
  fun g c => if String.eqb g group && String.eqb c member then false else r g c.

(** The effect of one recorded call on the registry. *)
Definition step (r : registry) (ev : event) : registry :=
  match ev with
  | GroupAdd group (Some member) => add r group member
  | GroupDiscard group (Some member) => discard r group member
  | _ => r
  end.

Definition run (r : registry) (t : list event) : registry :=
  fold_left step t r.

End Groups.

(** ** The ordering guard *)

Module OrderingGuard.
Section Guard.

Variable A : Type.
Variable token : A -> Z.

(** Modelled from the spec: [enforce_ordering] of [channels/sessions.py] is
    not part of the sources at hand.  The state of the strict guard of one
    connection: the token it expects next and the messages it holds back. *)
Record guard : Type := Guard {
  next_expected : Z;
  buffered : list A
}.

(** Modelled from the spec: part of the absent [enforce_ordering]; takes
    the first buffered message that carries [tok] out of the buffer. *)
Fixpoint take_token (tok : Z) (buf : list A) : option (A * list A) :=
  match buf with
  | [] => None
  | m :: buf' =>
      if Z.eqb (token m) tok then Some (m, buf')
      else match take_token tok buf' with
           | Some (m', rest) => Some (m', m :: rest)
           | None => None
           end
  end.

(** Modelled from the spec: part of the absent [enforce_ordering]; once a
    gap is filled, buffered messages are released while the next expected
    one is there.  Every round takes one message out, so [fuel] is the
    length of the buffer. *)
Fixpoint release (fuel : nat) (g : guard) : list A * guard :=
  match fuel with
  | O => ([], g)
  | S fuel' =>
      match take_token (next_expected g) (buffered g) with
      | None => ([], g)
      | Some (m, rest) =>
          let '(ran, g') :=
            release fuel' {| next_expected := next_expected g + 1; buffered := rest |} in
          (m :: ran, g')
      end
  end.

(** Modelled from the spec: the strict mode of the absent
    [enforce_ordering].  One delivery: a message whose token is the next
    expected one runs, followed by the buffered messages it unblocks; any
    other message is buffered, not dropped.  The result is the messages the
    wrapped handler runs on, in order, and the guard afterwards. *)
Definition deliver (g : guard) (m : A) : list A * guard :=
  if Z.eqb (token m) (next_expected g) then
    let '(ran, g') :=
      release (List.length (buffered g))
        {| next_expected := next_expected g + 1; buffered := buffered g |} in
    (m :: ran, g')
  else
    ([], {| next_expected := next_expected g; buffered := buffered g ++ [m] |}).

(** Modelled from the spec: the absent [enforce_ordering] over a sequence of
    deliveries, in the order the transport hands them over. *)
Fixpoint run (g : guard) (deliveries : list A) : list A * guard :=
  match deliveries with
  | [] => ([], g)
  | m :: ms =>
      let '(ran, g') := deliver g m in
      let '(ran', g'') := run g' ms in
      (ran ++ ran', g'')
  end.

(** The guard of a fresh connection whose first token is [first]. *)
Definition start (first : Z) : guard :=
  {| next_expected := first; buffered := [] |}.

(** What the handler executes, in order. *)
Definition executed (first : Z) (deliveries : list A) : list A :=
  fst (run (start first) deliveries).

(** What is still held back after the deliveries. *)
Definition pending (first : Z) (deliveries : list A) : list A :=
  buffered (snd (run (start first) deliveries)).

End Guard.

Arguments next_expected {A} g.
Arguments buffered {A} g.

(** Modelled from the spec: the order token of a message, carried in its
    content under [order]; a message without one is assigned token [0]. *)
Definition message_order (m : message) : Z :=
  match dict_get (content m) "order" with
  | Some (VInt n) => n
  | _ => 0
  end.

End OrderingGuard.

(** ** A reference JSON library

    A small codec that meets the interface of [json_library]: compact JSON
    text, integers in decimal, strings with the quote and the backslash
    escaped.  It is the instance the round-trip statements are checked
    against. *)
Module ReferenceJson.

Definition quote : ascii := "034"%char.
Definition backslash : ascii := "092"%char.

Definition chars (s : string) : list ascii := list_ascii_of_string s.

Definition needs_escape (c : ascii) : bool :=
  Ascii.eqb c quote || Ascii.eqb c backslash.

Fixpoint escape (s : list ascii) : list ascii :=
  match s with
  | [] => []
  | c :: s' =>
      if needs_escape c then backslash :: c :: escape s' else c :: escape s'
  end.

Definition print_string (s : string) : list ascii :=
  quote :: escape (chars s) ++ [quote].

Definition print_int (n : Z) : list ascii :=
  chars (NilZero.string_of_int (Z.to_int n)).

(** The text of a value; a byte string has none ([dumps] refuses it). *)
Fixpoint print (v : value) : list ascii :=
  match v with
  | VNone => chars "null"
  | VBool true => chars "true"
  | VBool false => chars "false"
  | VInt n => print_int n
  | VStr s => print_string s
  | VBytes _ => []
  | VList [] => chars "[]"
  | VList (x :: l) =>
      "["%char :: print x ++
        (fix tail (l : list value) : list ascii :=
           match l with
           | [] => ["]"%char]
           | y :: l' => ","%char :: print y ++ tail l'
           end) l
  | VDict [] => chars "{}"
  | VDict ((k, x) :: d) =>
      "{"%char :: print_string k ++ ":"%char :: print x ++
        (fix tail (d : list (string * value)) : list ascii :=
           match d with
           | [] => ["}"%char]
           | (k', y) :: d' =>
               ","%char :: print_string k' ++ ":"%char :: print y ++ tail d'
           end) d
  end.

(** No byte string anywhere in the value. *)
Fixpoint serializable (v : value) : bool :=
  match v with
  | VBytes _ => false
  | VList l =>
      (fix all (l : list value) : bool :=
         match l with
         | [] => true
         | x :: l' => serializable x && all l'
         end) l
  | VDict d =>
      (fix all (d : list (string * value)) : bool :=
         match d with
         | [] => true
         | (_, x) :: d' => serializable x && all d'
         end) d
  | _ => true
  end.

Definition is_number_char (c : ascii) : bool :=
  Ascii.eqb c "-"%char
  || (let n := nat_of_ascii c in Nat.leb 48 n && Nat.leb n 57).

(** The longest prefix of number characters, and what follows it. *)
Fixpoint span_number (s : list ascii) : list ascii * list ascii :=
  match s with
  | [] => ([], [])
  | c :: s' =>
      if is_number_char c
      then let '(digits, rest) := span_number s' in (c :: digits, rest)
      else ([], s)
  end.

Definition parse_number (s : list ascii) : option (value * list ascii) :=
  let '(digits, rest) := span_number s in
  match NilZero.int_of_string (string_of_list_ascii digits) with
  | Some d => Some (VInt (Z.of_int d), rest)
  | None => None
  end.

(** The characters of a string up to its closing quote. *)
Fixpoint parse_string (s : list ascii) : option (list ascii * list ascii) :=
  match s with
  | [] => None
  | c :: rest =>
      if Ascii.eqb c quote then Some ([], rest)
      else if Ascii.eqb c backslash then
        match rest with
        | [] => None
        | e :: rest' =>
            if needs_escape e then
              match parse_string rest' with
              | Some (str, r) => Some (e :: str, r)
              | None => None
              end
            else None
        end
      else
        match parse_string rest with
        | Some (str, r) => Some (c :: str, r)
        | None => None
        end
  end.

Fixpoint strip_prefix (prefix s : list ascii) : option (list ascii) :=
  match prefix, s with
  | [], _ => Some s
  | p :: prefix', c :: s' => if Ascii.eqb p c then strip_prefix prefix' s' else None
  | _ :: _, [] => None
  end.

Definition keyword (word : string) (v : value) (s : list ascii)
  : option (value * list ascii) :=
  match strip_prefix (chars word) s with
  | Some rest => Some (v, rest)
  | None => None
  end.

(** A key and its colon. *)
Definition parse_key (s : list ascii) : option (string * list ascii) :=
  match s with
  | [] => None
  | c :: rest =>
      if Ascii.eqb c quote then
        match parse_string rest with
        | Some (str, colon :: r) =>
            if Ascii.eqb colon ":"%char then Some (string_of_list_ascii str, r)
            else None
        | _ => None
        end
      else None
  end.

(** Recursive descent; every call goes on with less fuel on a shorter
    text, so the length of the text is fuel enough. *)
Fixpoint parse_value (fuel : nat) (s : list ascii) {struct fuel}
  : option (value * list ascii) :=
  match fuel with
  | O => None
  | S fuel' =>
      match s with
      | [] => None
      | c :: rest =>
          if is_number_char c then parse_number s
          else if Ascii.eqb c "n"%char then keyword "ull" VNone rest
          else if Ascii.eqb c "t"%char then keyword "rue" (VBool true) rest
          else if Ascii.eqb c "f"%char then keyword "alse" (VBool false) rest
          else if Ascii.eqb c quote then
            match parse_string rest with
            | Some (str, r) => Some (VStr (string_of_list_ascii str), r)
            | None => None
            end
          else if Ascii.eqb c "["%char then
            match rest with
            | [] => None
            | c' :: rest' =>
                if Ascii.eqb c' "]"%char then Some (VList [], rest')
                else
                  match parse_value fuel' rest with
                  | Some (x, r) =>
                      match parse_list_tail fuel' r with
                      | Some (l, r') => Some (VList (x :: l), r')
                      | None => None
                      end
                  | None => None
                  end
            end
          else if Ascii.eqb c "{"%char then
            match rest with
            | [] => None
            | c' :: rest' =>
                if Ascii.eqb c' "}"%char then Some (VDict [], rest')
                else
                  match parse_key rest with
                  | Some (k, r0) =>
                      match parse_value fuel' r0 with
                      | Some (x, r) =>
                          match parse_dict_tail fuel' r with
                          | Some (d, r') => Some (VDict ((k, x) :: d), r')
                          | None => None
                          end
                      | None => None
                      end
                  | None => None
                  end
            end
          else None
      end
  end
with parse_list_tail (fuel : nat) (s : list ascii) {struct fuel}
  : option (list value * list ascii) :=
  match fuel with
  | O => None
  | S fuel' =>
      match s with
      | [] => None
      | c :: rest =>
          if Ascii.eqb c "]"%char then Some ([], rest)
          else if Ascii.eqb c ","%char then
            match parse_value fuel' rest with
            | Some (y, r) =>
                match parse_list_tail fuel' r with
                | Some (l, r') => Some (y :: l, r')
                | None => None
                end
            | None => None
            end
          else None
      end
  end
with parse_dict_tail (fuel : nat) (s : list ascii) {struct fuel}
  : option (list (string * value) * list ascii) :=
  match fuel with
  | O => None
  | S fuel' =>
      match s with
      | [] => None
      | c :: rest =>
          if Ascii.eqb c "}"%char then Some ([], rest)
          else if Ascii.eqb c ","%char then
            match parse_key rest with
            | Some (k, r0) =>
                match parse_value fuel' r0 with
                | Some (y, r) =>
                    match parse_dict_tail fuel' r with
                    | Some (d, r') => Some ((k, y) :: d, r')
                    | None => None
                    end
                | None => None
                end
            | None => None
            end
          else None
      end
  end.

Definition reference_dumps (enc : encoder) (v : value) : option string :=
  if serializable v then Some (string_of_list_ascii (print v)) else None.

Definition reference_loads (text : string) : option value :=
  let s := chars text in
  match parse_value (List.length s) s with
  | Some (v, []) => Some v
  | _ => None
  end.

Definition library : json_library :=
  {| dumps := reference_dumps; loads := reference_loads |}.

End ReferenceJson.

(** The text after the first element of a list, and after the first member
    of an object; [print] follows them. *)
Fixpoint print_list_tail (l : list value) : list ascii :=
  match l with
  | [] => ["]"%char]
  | y :: l' => ","%char :: ReferenceJson.print y ++ print_list_tail l'
  end.

Fixpoint print_dict_tail (d : list (string * value)) : list ascii :=
  match d with
  | [] => ["}"%char]
  | (k, y) :: d' =>
      ","%char :: ReferenceJson.print_string k ++
      ":"%char :: ReferenceJson.print y ++ print_dict_tail d'
  end.

(** What may follow a number in a text: not another number character. *)
Definition ends_number (rest : list ascii) : Prop :=
  match rest with
  | [] => True
  | c :: _ => ReferenceJson.is_number_char c = false
  end.

(** The reference parser reads a value's text back, whatever follows it. *)
Definition parses (v : value) : Prop :=
  forall fuel rest,
    List.length (ReferenceJson.print v) <= fuel ->
    ends_number rest ->
    ReferenceJson.parse_value fuel (ReferenceJson.print v ++ rest) = Some (v, rest).

(** ** Vocabulary of the statements *)

(** The content is an object with both envelope keys. *)
Definition is_envelope (content : value) : bool :=
  match content with
  | VDict c => dict_mem c "stream" && dict_mem c "payload"
  | _ => false
  end.

(** The stream value can be looked up in a dictionary. *)
Definition hashable (v : value) : bool :=
  match v with
  | VList _ | VDict _ => false
  | _ => true
  end.

(** The stream value is one of the whitelisted stream names. *)
Definition whitelisted (mp : list (string * string)) (stream : value) : bool :=
  match stream with
  | VStr s => existsb (fun kv => String.eqb (fst kv) s) mp
  | _ => false
  end.

Definition is_user_callback (ev : event) : bool :=
  match ev with
  | UserConnect _ _ | UserReceive _ _ _ | UserReceiveJson _ _ | UserDisconnect _ _ => true
  | _ => false
  end.

Definition no_keys_error : exn :=
  ValueError "Invalid multiplexed frame received (no channel/payload key)".
Definition not_mapped_error : exn :=
  ValueError "Invalid multiplexed frame received (stream not mapped)".
Definition payload_error : exn :=
  ValueError "Multiplexed frame payload is not a dict".

(** The tokens [first], [first + 1], ... ([n] of them). *)
Fixpoint consecutive (first : Z) (n : nat) : list Z :=
  match n with
  | O => []
  | S n' => first :: consecutive (first + 1) n'
  end.

(** No held-back message carries the token [tok]. *)
Definition none_carries {A : Type} (token : A -> Z) (tok : Z) (buf : list A) : Prop :=
  forall m, In m buf -> token m <> tok.

(** The frame an outbound call hands over, whoever receives it. *)
Definition sent_frame (ev : event) : option value :=
  match ev with
  | ReplySend _ frame => Some frame
  | GroupSend _ frame => Some frame
  | _ => None
  end.

(** The [close] entry of an outbound frame, there only when requested. *)
Definition close_entry (close : bool) : dict :=
  if close then [("close", VBool true)] else [].

(** ** Sample instances *)

(** A demultiplexer class whose whitelist maps [chat] to [chat-queue]. *)
Definition chat_class : consumer_class := {|
  http_user := false;
  slight_ordering := false;
  strict_ordering := false;
  channel_session := false;
  channel_session_user := false;
  connection_groups := fun _ => [];
  mapping := [("chat", "chat-queue")]
|}.

(** A text frame received on the connection [websocket.send!abc]. *)
Definition chat_frame : message := {|
  channel := "websocket.receive";
  content := [ ("reply_channel", VStr "websocket.send!abc");
               ("path", VStr "/chat/");
               ("order", VInt 1);
               ("text", VStr "{}") ]
|}.

Definition chat_consumer : consumer := BaseConsumer.init chat_class chat_frame [].

(** The connection of [chat_frame] opening and closing, and a frame of it
    that arrives with another path. *)
Definition chat_connect : message := {|
  channel := "websocket.connect";
  content := [ ("reply_channel", VStr "websocket.send!abc");
               ("path", VStr "/chat/");
               ("order", VInt 0) ]
|}.

Definition chat_disconnect : message := {|
  channel := "websocket.disconnect";
  content := [ ("reply_channel", VStr "websocket.send!abc");
               ("path", VStr "/chat/");
               ("order", VInt 2) ]
|}.

Definition other_frame : message := {|
  channel := "websocket.receive";
  content := [ ("reply_channel", VStr "websocket.send!abc");
               ("path", VStr "/other/");
               ("order", VInt 1);
               ("text", VStr "{}") ]
|}.

(** A disconnect event that carries no path. *)
Definition bare_disconnect : message := {|
  channel := "websocket.disconnect";
  content := [ ("reply_channel", VStr "websocket.send!abc") ]
|}.

(** A binary frame. *)
Definition binary_frame : message := {|
  channel := "websocket.receive";
  content := [ ("reply_channel", VStr "websocket.send!abc");
               ("path", VStr "/chat/");
               ("order", VInt 1);
               ("bytes", VBytes [Byte.x7b; Byte.x7d]) ]
|}.

(** A consumer class that joins two groups. *)
Definition room_class : consumer_class := {|
  http_user := false;
  slight_ordering := false;
  strict_ordering := true;
  channel_session := false;
  channel_session_user := false;
  connection_groups := fun _ => ["lobby"; "room-1"];
  mapping := []
|}.

(** Three frames of one connection with order tokens 1, 2 and 3. *)
Definition frame_with_order (n : Z) (text : string) : message := {|
  channel := "websocket.receive";
  content := [ ("reply_channel", VStr "websocket.send!abc");
               ("path", VStr "/chat/");
               ("order", VInt n);
               ("text", VStr text) ]
|}.

Definition room_consumer : consumer :=
  BaseConsumer.init room_class (frame_with_order 1 "a") [].

(** A text frame whose text is not JSON. *)
Definition malformed_frame : message := {|
  channel := "websocket.receive";
  content := [ ("reply_channel", VStr "websocket.send!abc");
               ("path", VStr "/chat/");
               ("order", VInt 1);
               ("text", VStr "{") ]
|}.

(** * Properties *)

(** ** Dictionaries *)

Lemma dict_get_set_same (d : dict) (key : string) (v : value) :
  dict_get (dict_set d key v) key = Some v.
Proof.
  induction d as [|[k w] d IH]; simpl.
  - now rewrite String.eqb_refl.
  - destruct (String.eqb k key) eqn:E; simpl; rewrite E; auto.
Qed.

Lemma dict_get_set_other (d : dict) (key key' : string) (v : value) :
  key' <> key -> dict_get (dict_set d key v) key' = dict_get d key'.
Proof.
  intros Hne. induction d as [|[k w] d IH]; simpl.
  - destruct (String.eqb key key') eqn:E; auto.
    apply String.eqb_eq in E. congruence.
  - destruct (String.eqb k key) eqn:E; simpl.
    + apply String.eqb_eq in E. subst k.
      destruct (String.eqb key key') eqn:E'; auto.
      apply String.eqb_eq in E'. congruence.
    + destruct (String.eqb k key'); auto.
Qed.

Lemma dict_mem_get (d : dict) (key : string) :
  dict_mem d key = true <-> exists v, dict_get d key = Some v.
Proof.
  induction d as [|[k w] d IH]; simpl.
  - split; [discriminate | intros [v H]; discriminate].
  - destruct (String.eqb k key); [split; eauto | exact IH].
Qed.

Lemma dict_mem_false_get (d : dict) (key : string) :
  dict_mem d key = false <-> dict_get d key = None.
Proof.
  induction d as [|[k w] d IH]; simpl.
  - tauto.
  - destruct (String.eqb k key); [split; discriminate | exact IH].
Qed.

Lemma dict_keys_set_in (d : dict) (key k : string) (v : value) :
  In k (dict_keys (dict_set d key v)) -> k = key \/ In k (dict_keys d).
Proof.
  induction d as [|[k0 w] d IH]; simpl.
  - intros [H | []]; auto.
  - destruct (String.eqb k0 key) eqn:E; simpl.
    + intros [H | H]; auto.
    + intros [H | H]; auto. destruct (IH H); auto.
Qed.

Lemma dict_set_keeps_nodup (d : dict) (key : string) (v : value) :
  NoDup (dict_keys d) -> NoDup (dict_keys (dict_set d key v)).
Proof.
  induction d as [|[k w] d IH]; simpl; intros Hnd.
  - constructor; [intros [] | constructor].
  - inversion Hnd as [|? ? Hnotin Hnd']; subst.
    destruct (String.eqb k key) eqn:E; simpl.
    + constructor; assumption.
    + constructor; [|auto].
      intros Hin. apply dict_keys_set_in in Hin as [-> | Hin]; [|contradiction].
      rewrite String.eqb_refl in E. discriminate.
Qed.

(** With unique keys, the only binding of [key] after [d[key] = v] is [v]. *)
Lemma dict_set_binding_unique (d : dict) (key : string) (v w : value) :
  NoDup (dict_keys d) -> In (key, w) (dict_set d key v) -> w = v.
Proof.
  induction d as [|[k u] d IH]; simpl; intros Hnd Hin.
  - destruct Hin as [H | []]. congruence.
  - inversion Hnd as [|? ? Hnotin Hnd']; subst.
    destruct (String.eqb k key) eqn:E.
    + apply String.eqb_eq in E. subst k.
      destruct Hin as [H | H]; [congruence|].
      exfalso. apply Hnotin. unfold dict_keys.
      change key with (fst (key, w)). now apply in_map.
    + destruct Hin as [H | H]; [|auto].
      injection H as -> _. rewrite String.eqb_refl in E. discriminate.
Qed.

(** ** The stream demultiplexer *)

Lemma whitelisted_find (mp : list (string * string)) (s : string) :
  existsb (fun kv => String.eqb (fst kv) s) mp = true ->
  exists k destination,
    find (fun kv => String.eqb (fst kv) s) mp = Some (k, destination).
Proof.
  induction mp as [|[k d] mp IH]; simpl; [discriminate|].
  destruct (String.eqb k s); simpl; eauto.
Qed.

(** A well-formed frame on a whitelisted stream is routed: one send, to the
    mapped destination, of the payload with the reply channel written in. *)
Lemma receive_routes (self : consumer) (c p : dict) (s : string)
    (k destination : string) (rc : value) (kwargs : dict) :
  dict_get c "stream" = Some (VStr s) ->
  dict_get c "payload" = Some (VDict p) ->
  find (fun kv => String.eqb (fst kv) s) (mapping (cls self)) = Some (k, destination) ->
  dict_get (content (self_message self)) "reply_channel" = Some rc ->
  WebsocketDemultiplexer.receive self (VDict c) kwargs
  = (Ok tt, [ChannelSend destination (VDict (dict_set p "reply_channel" rc))]).
Proof.
  intros Hs Hp Hf Hrc. unfold WebsocketDemultiplexer.receive.
  assert (Hm1 : dict_mem c "stream" = true) by (apply dict_mem_get; eauto).
  assert (Hm2 : dict_mem c "payload" = true) by (apply dict_mem_get; eauto).
  rewrite Hm1, Hm2. simpl.
  unfold dict_getitem, message_getitem, dict_getitem. rewrite Hs, Hp, Hrc. simpl.
  assert (He : existsb (fun kv => String.eqb (fst kv) s) (mapping (cls self)) = true).
  { apply existsb_exists. apply find_some in Hf. exists (k, destination). tauto. }
  rewrite He, Hf. reflexivity.
Qed.

(** C1: with mapping [{"chat": "chat-queue"}], [receive] on
    [{"stream": "chat", "payload": {"msg": "hi"}}] makes exactly one call: it
    sends to the channel [chat-queue] the payload [{"msg": "hi"}] with the
    key [reply_channel] bound to the reply channel of the connection's
    message; no user-level callback is invoked.  The same holds of the whole
    receive path, from a text frame that decodes to that content: the text
    is decoded, the payload is sent, and no [receive] callback runs. *)
Theorem demultiplexer_routes_chat_example (self : consumer) (rc : value) (kwargs : dict) :
  mapping (cls self) = [("chat", "chat-queue")] ->
  dict_get (content (self_message self)) "reply_channel" = Some rc ->
  let envelope :=
    VDict [("stream", VStr "chat"); ("payload", VDict [("msg", VStr "hi")])] in
  let sent :=
    ChannelSend "chat-queue" (VDict [("msg", VStr "hi"); ("reply_channel", rc)]) in
  let call := WebsocketDemultiplexer.receive self envelope kwargs in
  call = (Ok tt, [sent])
  /\ forallb (fun ev => negb (is_user_callback ev)) (trace call) = true
  /\ (forall (J : json_library) (m : message) (text : string),
        dict_get (content m) "text" = Some (VStr text) ->
        loads J text = Some envelope ->
        WebsocketDemultiplexer.raw_receive J self m kwargs
        = (Ok tt, [JsonLoads (VStr text); sent])).
Proof.
  intros Hmap Hrc envelope sent call.
  assert (Hcall : call = (Ok tt, [sent])).
  { unfold call, envelope, sent.
    erewrite receive_routes with (s := "chat") (k := "chat")
      (destination := "chat-queue") (rc := rc) (p := [("msg", VStr "hi")]);
      try reflexivity; try assumption.
    rewrite Hmap. reflexivity. }
  split; [exact Hcall|]. split; [rewrite Hcall; reflexivity|].
  intros J m text Htext Hloads.
  unfold WebsocketDemultiplexer.raw_receive, JsonWebsocketConsumer.raw_receive.
  assert (Hmem : message_contains m "text" = true)
    by (apply dict_mem_get; eauto).
  rewrite Hmem. unfold message_getitem, dict_getitem, json_loads.
  rewrite Htext. cbn [bind ret emit app]. rewrite Hloads. cbn [bind ret app].
  fold envelope call. rewrite Hcall. reflexivity.
Qed.

Lemma demultiplexer_routes_chat_example_witness :
  WebsocketDemultiplexer.receive chat_consumer
    (VDict [("stream", VStr "chat"); ("payload", VDict [("msg", VStr "hi")])]) []
  = (Ok tt, [ChannelSend "chat-queue"
               (VDict [("msg", VStr "hi");
                       ("reply_channel", VStr "websocket.send!abc")])]).
Proof.
  destruct (demultiplexer_routes_chat_example chat_consumer
              (VStr "websocket.send!abc") [] eq_refl eq_refl) as [Hcall _].
  exact Hcall.
Defined.

(** C2, as stated, fails: a content whose stream is not whitelisted and that
    has no [payload] key is refused for its missing key, not for its
    stream. *)
Lemma unmapped_stream_without_payload_counterexample :
  let content := VDict [("stream", VStr "video")] in
  whitelisted (mapping (cls chat_consumer)) (VStr "video") = false
  /\ WebsocketDemultiplexer.receive chat_consumer content []
     = (Raise no_keys_error, [])
  /\ WebsocketDemultiplexer.receive chat_consumer content []
     <> (Raise not_mapped_error, []).
Proof.
  repeat split; try reflexivity. discriminate.
Qed.

(** A stream value that cannot be hashed makes the whitelist lookup itself
    raise. *)
Example receive_unhashable_stream :
  WebsocketDemultiplexer.receive chat_consumer
    (VDict [("stream", VList [VStr "chat"]); ("payload", VDict [])]) []
  = (Raise (TypeError "unhashable type: 'list'"), []).
Proof. reflexivity. Qed.

(** C2 (amended): a content that is an object with both a [stream] and a
    [payload] key, whose stream value is hashable and not whitelisted, is
    refused with the stream-not-mapped [ValueError] and nothing is sent,
    whatever the payload is. *)
Theorem unmapped_stream_is_refused (self : consumer) (c : dict)
    (stream payload : value) (kwargs : dict) :
  dict_get c "stream" = Some stream ->
  dict_get c "payload" = Some payload ->
  hashable stream = true ->
  whitelisted (mapping (cls self)) stream = false ->
  WebsocketDemultiplexer.receive self (VDict c) kwargs = (Raise not_mapped_error, []).
Proof.
  intros Hs Hp Hh Hw. unfold WebsocketDemultiplexer.receive.
  assert (Hm1 : dict_mem c "stream" = true) by (apply dict_mem_get; eauto).
  assert (Hm2 : dict_mem c "payload" = true) by (apply dict_mem_get; eauto).
  rewrite Hm1, Hm2. simpl. unfold dict_getitem. rewrite Hs. simpl.
  destruct stream; simpl in *; try discriminate; try reflexivity.
  rewrite Hw. reflexivity.
Qed.

Lemma unmapped_stream_is_refused_witness :
  WebsocketDemultiplexer.receive chat_consumer
    (VDict [("stream", VStr "video"); ("payload", VStr "not even an object")]) []
  = (Raise not_mapped_error, []).
Proof.
  apply (unmapped_stream_is_refused chat_consumer _ (VStr "video")
           (VStr "not even an object")); reflexivity.
Defined.

(** C3: a content that is not an object with both a [stream] and a
    [payload] key is refused with the no-channel/payload-key [ValueError];
    a content on a whitelisted stream whose payload is not an object is
    refused with the payload-is-not-a-dict [ValueError]; in both cases
    nothing is sent. *)
Theorem malformed_frame_is_refused (self : consumer) (kwargs : dict) :
  (forall content,
     is_envelope content = false ->
     WebsocketDemultiplexer.receive self content kwargs = (Raise no_keys_error, []))
  /\
  (forall c stream payload,
     dict_get c "stream" = Some stream ->
     whitelisted (mapping (cls self)) stream = true ->
     dict_get c "payload" = Some payload ->
     is_dict payload = false ->
     WebsocketDemultiplexer.receive self (VDict c) kwargs = (Raise payload_error, [])).
Proof.
  split.
  - intros content He. unfold WebsocketDemultiplexer.receive.
    destruct content; try reflexivity. simpl in He. rewrite He. reflexivity.
  - intros c stream payload Hs Hw Hp Hd. unfold WebsocketDemultiplexer.receive.
    assert (Hm1 : dict_mem c "stream" = true) by (apply dict_mem_get; eauto).
    assert (Hm2 : dict_mem c "payload" = true) by (apply dict_mem_get; eauto).
    rewrite Hm1, Hm2. simpl. unfold dict_getitem. rewrite Hs, Hp. simpl.
    destruct stream; simpl in Hw; try discriminate. simpl. rewrite Hw.
    destruct payload; simpl in Hd; try discriminate; reflexivity.
Qed.

Lemma malformed_frame_is_refused_witness :
  WebsocketDemultiplexer.receive chat_consumer (VDict [("foo", VStr "bar")]) []
  = (Raise no_keys_error, [])
  /\ WebsocketDemultiplexer.receive chat_consumer
       (VDict [("stream", VStr "chat"); ("payload", VStr "hi")]) []
     = (Raise payload_error, []).
Proof.
  destruct (malformed_frame_is_refused chat_consumer []) as [Hkeys Hpayload].
  split.
  - apply Hkeys. reflexivity.
  - apply (Hpayload _ (VStr "chat") (VStr "hi")); reflexivity.
Defined.

(** C10: whenever [receive] routes a frame, the one thing it sends is the
    inbound payload with [reply_channel] set to the reply channel of the
    connection's message: the key reads as that value, every other key reads
    as before, and (keys being unique in an object) no other binding of
    [reply_channel] is left, so a value the client supplied under that key
    does not reach the destination. *)
Theorem routed_payload_carries_connection_reply_channel
    (self : consumer) (decoded : value) (kwargs : dict) (t : list event) :
  WebsocketDemultiplexer.receive self decoded kwargs = (Ok tt, t) ->
  exists c p destination rc,
    decoded = VDict c
    /\ dict_get c "payload" = Some (VDict p)
    /\ dict_get (content (self_message self)) "reply_channel" = Some rc
    /\ t = [ChannelSend destination (VDict (dict_set p "reply_channel" rc))]
    /\ dict_get (dict_set p "reply_channel" rc) "reply_channel" = Some rc
    /\ (forall key, key <> "reply_channel" ->
          dict_get (dict_set p "reply_channel" rc) key = dict_get p key)
    /\ (NoDup (dict_keys p) ->
          forall v, In ("reply_channel", v) (dict_set p "reply_channel" rc) -> v = rc).
Proof.
  unfold WebsocketDemultiplexer.receive. intros H.
  destruct decoded as [| | | | | |c]; try discriminate.
  destruct (dict_mem c "stream" && dict_mem c "payload") eqn:Hkeys; [|discriminate].
  apply andb_true_iff in Hkeys as [Hm1 Hm2].
  apply dict_mem_get in Hm1 as [stream Hs]. apply dict_mem_get in Hm2 as [payload Hp].
  unfold dict_getitem, message_getitem, dict_getitem in H. rewrite Hs, Hp in H.
  simpl in H.
  destruct stream as [| | |s| | |]; simpl in H; try discriminate.
  destruct (existsb (fun kv => String.eqb (fst kv) s) (mapping (cls self))) eqn:Hw;
    [|discriminate].
  apply whitelisted_find in Hw as (k & destination & Hf).
  destruct payload as [| | | | | |p]; try discriminate.
  destruct (dict_get (content (self_message self)) "reply_channel")
    as [rc|] eqn:Hrc; [|discriminate].
  simpl in H. rewrite Hf in H. simpl in H. injection H as <-.
  exists c, p, destination, rc. repeat split; auto.
  - apply dict_get_set_same.
  - intros key Hne. now apply dict_get_set_other.
  - intros Hnd v Hin. eapply dict_set_binding_unique; eauto.
Qed.

Lemma routed_payload_carries_connection_reply_channel_witness :
  exists c p destination rc,
    VDict [("stream", VStr "chat");
           ("payload", VDict [("reply_channel", VStr "websocket.send!victim");
                              ("msg", VStr "hi")])] = VDict c
    /\ dict_get c "payload" = Some (VDict p)
    /\ dict_get (content (self_message chat_consumer)) "reply_channel" = Some rc
    /\ [ChannelSend "chat-queue"
          (VDict [("reply_channel", VStr "websocket.send!abc"); ("msg", VStr "hi")])]
       = [ChannelSend destination (VDict (dict_set p "reply_channel" rc))]
    /\ dict_get (dict_set p "reply_channel" rc) "reply_channel" = Some rc
    /\ (forall key, key <> "reply_channel" ->
          dict_get (dict_set p "reply_channel" rc) key = dict_get p key)
    /\ (NoDup (dict_keys p) ->
          forall v, In ("reply_channel", v) (dict_set p "reply_channel" rc) -> v = rc).
Proof.
  apply (routed_payload_carries_connection_reply_channel chat_consumer _ []).
  reflexivity.
Defined.

(** ** Outbound frames *)

(** C4, as stated, fails: with both [text] and [bytes] set, [send] does not
    raise; it sends the text frame and ignores the bytes. *)
Lemma send_with_text_and_bytes_counterexample :
  WebsocketConsumer.send chat_consumer (VStr "a") (VBytes [Byte.x62]) false
  = (Ok tt, [ReplySend "websocket.send!abc" (VDict [("text", VStr "a")])])
  /\ WebsocketConsumer.group_send "room" (VStr "a") (VBytes [Byte.x62]) false
     = (Ok tt, [GroupSend "room" (VDict [("text", VStr "a")])]).
Proof. split; reflexivity. Qed.

(** C4 (amended): [send] and [group_send] raise [ValueError] exactly when
    neither [text] nor [bytes] is set, and then send nothing.  When [text]
    is set the frame holds [text] alone, whether or not [bytes] is given
    too; when only [bytes] is set the frame holds [bytes] alone; [close] is
    in the frame only when it is requested.  [send] writes the frame to the
    connection's reply channel, [group_send] to the named group. *)
Theorem send_frame_contract (self : consumer) (rc name : string)
    (text bytes : value) (close : bool) :
  reply_channel (self_message self) = Some rc ->
  let close_part : dict := if close then [("close", VBool true)] else [] in
  (is_not_none text = false -> is_not_none bytes = false ->
     WebsocketConsumer.send self text bytes close
     = (Raise (ValueError "You must pass text or bytes"), [])
     /\ WebsocketConsumer.group_send name text bytes close
        = (Raise (ValueError "You must pass text or bytes"), []))
  /\ (is_not_none text = true ->
        WebsocketConsumer.send self text bytes close
        = (Ok tt, [ReplySend rc (VDict (close_part ++ [("text", text)]))])
        /\ WebsocketConsumer.group_send name text bytes close
           = (Ok tt, [GroupSend name (VDict (close_part ++ [("text", text)]))]))
  /\ (is_not_none text = false -> is_not_none bytes = true ->
        WebsocketConsumer.send self text bytes close
        = (Ok tt, [ReplySend rc (VDict (close_part ++ [("bytes", bytes)]))])
        /\ WebsocketConsumer.group_send name text bytes close
           = (Ok tt, [GroupSend name (VDict (close_part ++ [("bytes", bytes)]))])).
Proof.
  intros Hrc close_part.
  unfold WebsocketConsumer.send, WebsocketConsumer.group_send, reply_channel_send.
  split; [|split].
  - intros Ht Hb. rewrite Ht, Hb. split; reflexivity.
  - intros Ht. rewrite Ht, Hrc. destruct close; split; reflexivity.
  - intros Ht Hb. rewrite Ht, Hb, Hrc. destruct close; split; reflexivity.
Qed.

Lemma send_frame_contract_witness :
  WebsocketConsumer.send chat_consumer VNone (VBytes [Byte.x62]) true
  = (Ok tt, [ReplySend "websocket.send!abc"
               (VDict [("close", VBool true); ("bytes", VBytes [Byte.x62])])])
  /\ WebsocketConsumer.send chat_consumer VNone VNone true
     = (Raise (ValueError "You must pass text or bytes"), []).
Proof.
  split.
  - apply (send_frame_contract chat_consumer "websocket.send!abc" "room"
             VNone (VBytes [Byte.x62]) true); reflexivity.
  - apply (send_frame_contract chat_consumer "websocket.send!abc" "room"
             VNone VNone true); reflexivity.
Defined.

(** ** Group membership over a connection's life *)

Lemma for_each_emit {A} (xs : list A) (f : A -> event) :
  for_each xs (fun x => emit (f x)) = (Ok tt, map f xs).
Proof.
  induction xs as [|x xs IH]; simpl; [reflexivity|].
  rewrite IH. reflexivity.
Qed.

Lemma groups_run_app (r : Groups.registry) (t1 t2 : list event) :
  Groups.run r (t1 ++ t2) = Groups.run (Groups.run r t1) t2.
Proof. unfold Groups.run. apply fold_left_app. Qed.

Lemma adds_keep_member (gs : list string) (rc g c : string) :
  forall r, r g c = true ->
    Groups.run r (map (fun g' => GroupAdd g' (Some rc)) gs) g c = true.
Proof.
  induction gs as [|g0 gs IH]; simpl; intros r Hr; [exact Hr|].
  apply IH. unfold Groups.add. rewrite Hr. now destruct (_ && _).
Qed.

Lemma adds_make_member (gs : list string) (rc g : string) :
  In g gs ->
  forall r, Groups.run r (map (fun g' => GroupAdd g' (Some rc)) gs) g rc = true.
Proof.
  induction gs as [|g0 gs IH]; simpl; intros Hin r; [contradiction|].
  destruct (String.eqb g g0) eqn:E.
  - apply adds_keep_member. unfold Groups.add. rewrite E, String.eqb_refl.
    reflexivity.
  - destruct Hin as [-> | Hin]; [rewrite String.eqb_refl in E; discriminate|].
    apply IH; assumption.
Qed.

Lemma discards_keep_absent (gs : list string) (rc g c : string) :
  forall r, r g c = false ->
    Groups.run r (map (fun g' => GroupDiscard g' (Some rc)) gs) g c = false.
Proof.
  induction gs as [|g0 gs IH]; simpl; intros r Hr; [exact Hr|].
  apply IH. unfold Groups.discard. rewrite Hr. now destruct (_ && _).
Qed.

Lemma discards_remove_member (gs : list string) (rc g : string) :
  In g gs ->
  forall r, Groups.run r (map (fun g' => GroupDiscard g' (Some rc)) gs) g rc = false.
Proof.
  induction gs as [|g0 gs IH]; simpl; intros Hin r; [contradiction|].
  destruct (String.eqb g g0) eqn:E.
  - apply discards_keep_absent. unfold Groups.discard.
    rewrite E, String.eqb_refl. reflexivity.
  - destruct Hin as [-> | Hin]; [rewrite String.eqb_refl in E; discriminate|].
    apply IH; assumption.
Qed.

(** C7: whatever list [connection_groups] returns (empty, one group,
    several), the connect event adds the connection's reply channel to each
    group of the list, in order, and only then calls the user's [connect];
    the disconnect event discards it from each group, in order, and only
    then calls the user's [disconnect].  In the group registry the reply
    channel is a member of every listed group after the connect and of none
    of them after the disconnect. *)
Theorem connect_then_disconnect_leaves_every_group
    (self_c self_d : consumer) (m_c m_d : message) (kwargs : dict) (rc : string) :
  cls self_d = cls self_c ->
  reply_channel m_c = Some rc ->
  reply_channel m_d = Some rc ->
  let groups := connection_groups (cls self_c) kwargs in
  let on_connect := WebsocketConsumer.raw_connect self_c m_c kwargs in
  let on_disconnect := WebsocketConsumer.raw_disconnect self_d m_d kwargs in
  on_connect
  = (Ok tt, map (fun g => GroupAdd g (Some rc)) groups ++ [UserConnect m_c kwargs])
  /\ on_disconnect
     = (Ok tt, map (fun g => GroupDiscard g (Some rc)) groups ++ [UserDisconnect m_d kwargs])
  /\ forall (r : Groups.registry) (g : string), In g groups ->
       Groups.run r (trace on_connect) g rc = true
       /\ Groups.run r (trace on_connect ++ trace on_disconnect) g rc = false.
Proof.
  intros Hcls Hc Hd groups on_connect on_disconnect.
  assert (E1 : on_connect
    = (Ok tt, map (fun g => GroupAdd g (Some rc)) groups ++ [UserConnect m_c kwargs])).
  { unfold on_connect, WebsocketConsumer.raw_connect. rewrite for_each_emit, Hc.
    reflexivity. }
  assert (E2 : on_disconnect
    = (Ok tt, map (fun g => GroupDiscard g (Some rc)) groups ++ [UserDisconnect m_d kwargs])).
  { unfold on_disconnect, WebsocketConsumer.raw_disconnect.
    rewrite for_each_emit, Hd, Hcls. reflexivity. }
  split; [exact E1|]. split; [exact E2|].
  intros r g Hin. rewrite E1, E2. unfold trace. simpl.
  repeat rewrite groups_run_app. simpl. split.
  - now apply adds_make_member.
  - now apply discards_remove_member.
Qed.

Lemma connect_then_disconnect_leaves_every_group_witness :
  let on_connect :=
    WebsocketConsumer.raw_connect (BaseConsumer.init room_class chat_connect [])
      chat_connect [] in
  let on_disconnect :=
    WebsocketConsumer.raw_disconnect (BaseConsumer.init room_class chat_disconnect [])
      chat_disconnect [] in
  on_connect
  = (Ok tt, [GroupAdd "lobby" (Some "websocket.send!abc");
             GroupAdd "room-1" (Some "websocket.send!abc");
             UserConnect chat_connect []])
  /\ on_disconnect
     = (Ok tt, [GroupDiscard "lobby" (Some "websocket.send!abc");
                GroupDiscard "room-1" (Some "websocket.send!abc");
                UserDisconnect chat_disconnect []])
  /\ forall (r : Groups.registry) (g : string), In g ["lobby"; "room-1"] ->
       Groups.run r (trace on_connect) g "websocket.send!abc" = true
       /\ Groups.run r (trace on_connect ++ trace on_disconnect) g
            "websocket.send!abc" = false.
Proof.
  apply (connect_then_disconnect_leaves_every_group
           (BaseConsumer.init room_class chat_connect [])
           (BaseConsumer.init room_class chat_disconnect [])
           chat_connect chat_disconnect [] "websocket.send!abc"); reflexivity.
Defined.

(** ** The path of an event *)

(** C9, as stated, fails: [get_handler] runs for every event and reads
    [path] each time.  Two receive events that differ in nothing but their
    path leave different paths on the instance, and a disconnect event
    without a path makes [get_handler] raise [KeyError]. *)
Lemma path_is_read_on_receive_and_disconnect_counterexample :
  channel chat_frame = "websocket.receive"
  /\ channel other_frame = "websocket.receive"
  /\ self_path (fst (WebsocketConsumer.get_handler chat_consumer chat_frame))
     = Some (VStr "/chat/")
  /\ self_path (fst (WebsocketConsumer.get_handler chat_consumer other_frame))
     = Some (VStr "/other/")
  /\ channel bare_disconnect = "websocket.disconnect"
  /\ snd (WebsocketConsumer.get_handler chat_consumer bare_disconnect)
     = Raise (KeyError (VStr "path")).
Proof. repeat split. Qed.

(** C9 (amended): [get_handler] leaves the message alone and reads its
    [path] on every event it is asked to dispatch, whatever the kind: a path
    that is there is copied onto the instance, a path that is missing makes
    [get_handler] raise [KeyError] and leaves the instance's path as it
    was. *)
Theorem path_is_read_on_every_event (self : consumer) (m : message) :
  self_message (fst (WebsocketConsumer.get_handler self m)) = self_message self
  /\ (forall p, dict_get (content m) "path" = Some p ->
        self_path (fst (WebsocketConsumer.get_handler self m)) = Some p)
  /\ (dict_get (content m) "path" = None ->
        snd (WebsocketConsumer.get_handler self m) = Raise (KeyError (VStr "path"))
        /\ self_path (fst (WebsocketConsumer.get_handler self m)) = self_path self).
Proof.
  unfold WebsocketConsumer.get_handler.
  destruct (dict_get (content m) "path") as [p|] eqn:Hp.
  - assert (Hshape : forall (x : consumer * outcome handler),
              (exists o, x = ({| cls := cls self;
                                 self_message := self_message self;
                                 self_kwargs := self_kwargs self;
                                 self_path := Some p;
                                 self_channel_session_user :=
                                   if http_user (cls self) then true
                                   else self_channel_session_user self |}, o)) ->
              self_message (fst x) = self_message self
              /\ self_path (fst x) = Some p).
    { intros x [o ->]. split; reflexivity. }
    match goal with
    | |- self_message (fst ?x) = _ /\ _ => destruct (Hshape x) as [Hm Hpath]
    end.
    + destruct (http_user (cls self)); simpl;
        match goal with
        | |- context [BaseConsumer.get_handler ?mm ?s ?m'] =>
            destruct (BaseConsumer.get_handler mm s m')
        end; simpl;
        repeat match goal with
               | |- context [if ?b then _ else _] => destruct b
               end; eexists; reflexivity.
    + split; [exact Hm|]. split; [|discriminate].
      intros p' Hp'. injection Hp' as <-. exact Hpath.
  - destruct (http_user (cls self)); simpl; repeat split; discriminate.
Qed.

Lemma path_is_read_on_every_event_witness :
  self_path (fst (WebsocketConsumer.get_handler chat_consumer other_frame))
  = Some (VStr "/other/")
  /\ snd (WebsocketConsumer.get_handler chat_consumer bare_disconnect)
     = Raise (KeyError (VStr "path")).
Proof.
  split.
  - apply (path_is_read_on_every_event chat_consumer other_frame). reflexivity.
  - apply (path_is_read_on_every_event chat_consumer bare_disconnect). reflexivity.
Defined.

(** ** The ordering guard *)

Section GuardProperties.

Variable A : Type.
Variable token : A -> Z.

Local Abbreviation guard := (OrderingGuard.guard A).
Local Abbreviation take_token := (OrderingGuard.take_token A token).
Local Abbreviation release := (OrderingGuard.release A token).
Local Abbreviation deliver := (OrderingGuard.deliver A token).
Local Abbreviation run := (OrderingGuard.run A token).
Local Abbreviation next_expected := OrderingGuard.next_expected.
Local Abbreviation buffered := OrderingGuard.buffered.
Local Abbreviation none_carries := (none_carries token).

Lemma consecutive_app (first : Z) (n k : nat) :
  consecutive first (n + k)
  = consecutive first n ++ consecutive (first + Z.of_nat n) k.
Proof.
  revert first. induction n as [|n IH]; intros first.
  - simpl. now rewrite Z.add_0_r.
  - cbn [Nat.add consecutive app]. rewrite IH. do 3 f_equal. lia.
Qed.

Lemma consecutive_length (first : Z) (n : nat) :
  List.length (consecutive first n) = n.
Proof. revert first. induction n; intros; simpl; auto. Qed.

Lemma consecutive_in (first : Z) (n : nat) (z : Z) :
  In z (consecutive first n) <-> (first <= z < first + Z.of_nat n)%Z.
Proof.
  revert first. induction n as [|n IH]; intros first.
  - simpl. lia.
  - cbn [consecutive In]. rewrite IH. lia.
Qed.

Lemma take_token_some (tok : Z) (buf rest : list A) (m : A) :
  take_token tok buf = Some (m, rest) ->
  token m = tok /\ Permutation buf (m :: rest).
Proof.
  revert rest. induction buf as [|x buf IH]; simpl; intros rest H; [discriminate|].
  destruct (Z.eqb (token x) tok) eqn:E.
  - injection H as <- <-. apply Z.eqb_eq in E. auto.
  - destruct (take_token tok buf) as [[m' rest']|]; [|discriminate].
    injection H as <- <-. destruct (IH _ eq_refl) as [Ht Hp]. split; [exact Ht|].
    rewrite Hp. apply perm_swap.
Qed.

Lemma take_token_none (tok : Z) (buf : list A) :
  take_token tok buf = None -> none_carries tok buf.
Proof.
  induction buf as [|x buf IH]; simpl; intros H m Hin; [contradiction|].
  destruct (Z.eqb (token x) tok) eqn:E; [discriminate|].
  destruct (take_token tok buf) as [[m' rest']|]; [discriminate|].
  destruct Hin as [<- | Hin]; [now apply Z.eqb_neq | now apply IH].
Qed.

(** What one round of releases does: nothing is lost, the released
    messages carry the consecutive tokens from the expected one on, and,
    with fuel for the whole buffer, the message expected afterwards is
    not among those still held. *)
Lemma release_spec (fuel : nat) (g : guard) :
  let '(ran, g') := release fuel g in
  Permutation (buffered g) (ran ++ buffered g')
  /\ map token ran = consecutive (next_expected g) (List.length ran)
  /\ next_expected g' = (next_expected g + Z.of_nat (List.length ran))%Z
  /\ (List.length (buffered g) <= fuel ->
      none_carries (next_expected g') (buffered g')).
Proof.
  revert g. induction fuel as [|fuel IH]; intros g.
  - simpl. repeat split; auto; try lia.
    intros Hlen m Hin. destruct (buffered g); [contradiction | simpl in Hlen; lia].
  - simpl. destruct (take_token (next_expected g) (buffered g)) as [[m rest]|] eqn:Ht.
    + apply take_token_some in Ht as [Htok Hperm].
      specialize (IH {| OrderingGuard.next_expected := (next_expected g + 1)%Z;
                        OrderingGuard.buffered := rest |}).
      destruct (release fuel _) as [ran g']. simpl in IH.
      destruct IH as (Hp & Hm & Hn & Hc). repeat split.
      * rewrite Hperm. simpl. now constructor.
      * simpl. now rewrite Htok, Hm.
      * rewrite Hn. simpl List.length. lia.
      * intros Hlen. apply Hc. apply Permutation_length in Hperm.
        simpl in Hperm. lia.
    + repeat split; auto; simpl; try lia.
      intros _. now apply take_token_none.
Qed.

Lemma deliver_spec (g : guard) (m : A) :
  let '(ran, g') := deliver g m in
  Permutation (buffered g ++ [m]) (ran ++ buffered g')
  /\ map token ran = consecutive (next_expected g) (List.length ran)
  /\ next_expected g' = (next_expected g + Z.of_nat (List.length ran))%Z
  /\ (none_carries (next_expected g) (buffered g) ->
      none_carries (next_expected g') (buffered g')).
Proof.
  unfold OrderingGuard.deliver. destruct (Z.eqb (token m) (next_expected g)) eqn:E.
  - apply Z.eqb_eq in E.
    pose proof (release_spec (List.length (buffered g))
                  {| OrderingGuard.next_expected := (next_expected g + 1)%Z;
                     OrderingGuard.buffered := buffered g |}) as R.
    destruct (release _ _) as [ran g']. simpl in R.
    destruct R as (Hp & Hm & Hn & Hc). repeat split.
    + rewrite <- Permutation_cons_append. simpl. now constructor.
    + simpl. now rewrite E, Hm.
    + rewrite Hn. simpl List.length. lia.
    + intros _. apply Hc. lia.
  - apply Z.eqb_neq in E. simpl. repeat split; auto; try lia.
    intros Hnone x Hin. apply in_app_or in Hin as [Hin | [<- | []]];
      [now apply Hnone | exact E].
Qed.

Lemma run_spec (deliveries : list A) (g : guard) :
  let '(ran, g') := run g deliveries in
  Permutation (buffered g ++ deliveries) (ran ++ buffered g')
  /\ map token ran = consecutive (next_expected g) (List.length ran)
  /\ next_expected g' = (next_expected g + Z.of_nat (List.length ran))%Z
  /\ (none_carries (next_expected g) (buffered g) ->
      none_carries (next_expected g') (buffered g')).
Proof.
  revert g. induction deliveries as [|m ms IH]; intros g.
  - simpl. rewrite app_nil_r. repeat split; auto; lia.
  - simpl. pose proof (deliver_spec g m) as D.
    destruct (deliver g m) as [ran1 g1]. specialize (IH g1).
    destruct (run g1 ms) as [ran2 g2].
    destruct D as (Hp1 & Hm1 & Hn1 & Hc1). destruct IH as (Hp2 & Hm2 & Hn2 & Hc2).
    repeat split.
    + change (m :: ms) with ([m] ++ ms). rewrite app_assoc, Hp1.
      rewrite <- !app_assoc. apply Permutation_app_head. exact Hp2.
    + rewrite map_app, length_app, consecutive_app, Hm1, Hm2, Hn1. reflexivity.
    + rewrite Hn2, Hn1, length_app. lia.
    + auto.
Qed.

(** When the delivered tokens are, in some order, [first .. first + n - 1],
    every message is executed, in token order. *)
Lemma run_complete (first : Z) (deliveries : list A) :
  Permutation (map token deliveries) (consecutive first (List.length deliveries)) ->
  let '(ran, g') := run (OrderingGuard.start A first) deliveries in
  buffered g' = []
  /\ Permutation deliveries ran
  /\ map token ran = consecutive first (List.length deliveries).
Proof.
  intros Hperm. pose proof (run_spec deliveries (OrderingGuard.start A first)) as R.
  destruct (run _ _) as [ran g']. simpl in R. destruct R as (Hp & Hm & Hn & Hc).
  assert (Hnone : none_carries (next_expected g') (buffered g')).
  { apply Hc. intros m []. }
  assert (Hlen : List.length deliveries
                 = (List.length ran + List.length (buffered g'))%nat).
  { apply Permutation_length in Hp. now rewrite length_app in Hp. }
  destruct (buffered g') as [|b bs] eqn:Hb.
  - rewrite app_nil_r in Hp. simpl in Hlen. rewrite Nat.add_0_r in Hlen.
    repeat split; [exact Hp | now rewrite Hlen].
  - exfalso.
    assert (Hin : In (next_expected g') (map token deliveries)).
    { eapply Permutation_in; [symmetry; exact Hperm|].
      apply consecutive_in. rewrite Hn, Hlen. simpl List.length. lia. }
    eapply Permutation_in in Hin; [|apply Permutation_map; exact Hp].
    rewrite map_app in Hin. apply in_app_or in Hin as [Hin | Hin].
    + rewrite Hm in Hin. apply consecutive_in in Hin. lia.
    + apply in_map_iff in Hin as (x & Hx & Hxin). now apply (Hnone x).
Qed.

End GuardProperties.

Lemma strict_ordering_wraps_handler (self : consumer) (m : message) (h : handler) :
  strict_ordering (cls self) = true ->
  snd (WebsocketConsumer.get_handler self m) = Ok h ->
  exists h0, h = enforce_ordering h0 false.
Proof.
  unfold WebsocketConsumer.get_handler. intros Hstrict.
  destruct (dict_get (content m) "path") as [p|]; [|destruct (http_user _); discriminate].
  destruct (http_user (cls self)) eqn:Hu; simpl;
    match goal with
    | |- context [BaseConsumer.get_handler ?mm ?s ?m'] =>
        destruct (BaseConsumer.get_handler mm s m')
    end; simpl; rewrite ?Hu, ?Hstrict; simpl; intros H;
    try discriminate; injection H as <-; eauto.
Qed.

(** C8: with [strict_ordering] set, [get_handler] hands back the handler
    wrapped in the strict ordering guard.  Under that guard, frames with
    tokens 1, 2, 3 that arrive as 1, 3, 2 are executed as 1, 2, 3; in
    whatever order the three arrive, they are executed as 1, 2, 3 and none
    is left behind; and for any sequence of arrivals every frame is either
    executed or still held, never dropped. *)
Theorem strict_ordering_executes_in_token_order
    (self : consumer) (m : message) (h : handler) (m1 m2 m3 : message) :
  strict_ordering (cls self) = true ->
  snd (WebsocketConsumer.get_handler self m) = Ok h ->
  OrderingGuard.message_order m1 = 1%Z ->
  OrderingGuard.message_order m2 = 2%Z ->
  OrderingGuard.message_order m3 = 3%Z ->
  let executed := OrderingGuard.executed message OrderingGuard.message_order in
  let pending := OrderingGuard.pending message OrderingGuard.message_order in
  (exists h0, h = enforce_ordering h0 false)
  /\ executed 1%Z [m1; m3; m2] = [m1; m2; m3]
  /\ (forall arrivals, Permutation arrivals [m1; m2; m3] ->
        executed 1%Z arrivals = [m1; m2; m3] /\ pending 1%Z arrivals = [])
  /\ (forall first arrivals,
        Permutation arrivals (executed first arrivals ++ pending first arrivals)).
Proof.
  intros Hstrict Hh H1 H2 H3 executed pending.
  assert (Hany : forall arrivals, Permutation arrivals [m1; m2; m3] ->
            executed 1%Z arrivals = [m1; m2; m3] /\ pending 1%Z arrivals = []).
  { intros arrivals Hperm. unfold executed, pending, OrderingGuard.executed,
      OrderingGuard.pending.
    pose proof (run_complete message OrderingGuard.message_order 1%Z arrivals) as R.
    assert (Hlen : List.length arrivals = 3%nat)
      by (apply Permutation_length in Hperm; exact Hperm).
    rewrite Hlen in R.
    assert (Htok : Permutation (map OrderingGuard.message_order arrivals)
                     (consecutive 1 3)).
    { rewrite (Permutation_map OrderingGuard.message_order Hperm). simpl.
      rewrite H1, H2, H3. reflexivity. }
    specialize (R Htok).
    destruct (OrderingGuard.run message OrderingGuard.message_order
                (OrderingGuard.start message 1) arrivals) as [ran g'].
    destruct R as (Hb & Hp & Hm). simpl. split; [|exact Hb].
    assert (Hin : forall x, In x ran -> x = m1 \/ x = m2 \/ x = m3).
    { intros x Hx. eapply Permutation_in in Hx; [|symmetry; exact Hp].
      eapply Permutation_in in Hx; [|exact Hperm]. simpl in Hx. intuition. }
    destruct ran as [|a [|b [|c [|d ran]]]]; try discriminate.
    simpl in Hm. injection Hm as Ha Hb' Hc.
    assert (a = m1) as ->
      by (destruct (Hin a) as [E | [E | E]]; simpl; auto; subst a; lia).
    assert (b = m2) as ->
      by (destruct (Hin b) as [E | [E | E]]; simpl; auto; subst b; lia).
    assert (c = m3) as ->
      by (destruct (Hin c) as [E | [E | E]]; simpl; auto; subst c; lia).
    reflexivity. }
  split; [eapply strict_ordering_wraps_handler; eauto|].
  split; [apply Hany; apply perm_skip, perm_swap|].
  split; [exact Hany|].
  intros first arrivals. unfold executed, pending, OrderingGuard.executed,
    OrderingGuard.pending.
  pose proof (run_spec message OrderingGuard.message_order arrivals
                (OrderingGuard.start message first)) as R.
  destruct (OrderingGuard.run _ _ _ _) as [ran g']. simpl in *. tauto.
Qed.

Lemma strict_ordering_executes_in_token_order_witness :
  let a := frame_with_order 1 "a" in
  let b := frame_with_order 2 "b" in
  let c := frame_with_order 3 "c" in
  OrderingGuard.executed message OrderingGuard.message_order 1%Z [a; c; b]
  = [a; b; c].
Proof.
  intros a b c.
  destruct (strict_ordering_executes_in_token_order room_consumer a
              (enforce_ordering (BoundMethod "raw_receive") false) a b c
              eq_refl eq_refl eq_refl eq_refl eq_refl) as (_ & Hordered & _).
  exact Hordered.
Defined.

(** ** The reference JSON library round-trips *)

Lemma value_nested_ind (P : value -> Prop) :
  P VNone ->
  (forall b, P (VBool b)) ->
  (forall n, P (VInt n)) ->
  (forall s, P (VStr s)) ->
  (forall b, P (VBytes b)) ->
  (forall l, Forall P l -> P (VList l)) ->
  (forall d, Forall (fun kv => P (snd kv)) d -> P (VDict d)) ->
  forall v, P v.
Proof.
  intros HN HB HI HS HBy HL HD. fix IH 1.
  intros [| b | n | s | b | l | d].
  - exact HN.
  - apply HB.
  - apply HI.
  - apply HS.
  - apply HBy.
  - apply HL. induction l as [|x l IHl]; constructor; [apply IH | exact IHl].
  - apply HD. induction d as [|[k x] d IHd]; constructor; [apply IH | exact IHd].
Qed.

Lemma print_list_unfold (x : value) (l : list value) :
  ReferenceJson.print (VList (x :: l))
  = "["%char :: ReferenceJson.print x ++ print_list_tail l.
Proof.
  reflexivity.
Qed.

Lemma print_dict_unfold (k : string) (x : value) (d : list (string * value)) :
  ReferenceJson.print (VDict ((k, x) :: d))
  = "{"%char :: ReferenceJson.print_string k ++
    ":"%char :: ReferenceJson.print x ++ print_dict_tail d.
Proof.
  reflexivity.
Qed.

Lemma serializable_list (l : list value) :
  ReferenceJson.serializable (VList l) = true ->
  Forall (fun x => ReferenceJson.serializable x = true) l.
Proof.
  induction l as [|x l IH]; simpl; intros H; constructor.
  - apply andb_true_iff in H. tauto.
  - apply IH. apply andb_true_iff in H. tauto.
Qed.

Lemma serializable_dict (d : list (string * value)) :
  ReferenceJson.serializable (VDict d) = true ->
  Forall (fun kv => ReferenceJson.serializable (snd kv) = true) d.
Proof.
  induction d as [|[k x] d IH]; simpl; intros H; constructor.
  - apply andb_true_iff in H. tauto.
  - apply IH. apply andb_true_iff in H. tauto.
Qed.

Lemma representable_serializable (v : value) :
  json_representable v -> ReferenceJson.serializable v = true.
Proof.
  induction v as [| | | | |l IH|d IH] using value_nested_ind; simpl; auto.
  - intros H. induction IH as [|x l Hx _ IHl]; [reflexivity|].
    destruct H as [H1 H2]. rewrite (Hx H1). simpl. now apply IHl.
  - intros [_ H]. induction IH as [|[k x] d Hx _ IHd]; [reflexivity|].
    destruct H as [H1 H2]. simpl in Hx. rewrite (Hx H1). simpl. now apply IHd.
Qed.

(** *** Strings *)

Lemma parse_string_escape (s rest : list ascii) :
  ReferenceJson.parse_string
    (ReferenceJson.escape s ++ ReferenceJson.quote :: rest)
  = Some (s, rest).
Proof.
  induction s as [|c s IH]; [reflexivity|].
  cbn [ReferenceJson.escape]. destruct (ReferenceJson.needs_escape c) eqn:E.
  - cbn [app ReferenceJson.parse_string]. rewrite E, IH. reflexivity.
  - pose proof E as E'. unfold ReferenceJson.needs_escape in E'.
    apply orb_false_iff in E' as [Eq Eb].
    cbn [app ReferenceJson.parse_string]. rewrite Eq, Eb, IH. reflexivity.
Qed.

Lemma parse_key_print (k : string) (rest : list ascii) :
  ReferenceJson.parse_key (ReferenceJson.print_string k ++ ":"%char :: rest)
  = Some (k, rest).
Proof.
  unfold ReferenceJson.print_string, ReferenceJson.parse_key.
  cbn [app]. rewrite <- app_assoc. cbn [app].
  replace (Ascii.eqb ReferenceJson.quote ReferenceJson.quote) with true by reflexivity.
  rewrite parse_string_escape.
  replace (Ascii.eqb ":" ":") with true by reflexivity.
  unfold ReferenceJson.chars. now rewrite string_of_list_ascii_of_string.
Qed.

(** *** Numbers *)

Lemma uint_chars_are_digits (d : Decimal.uint) :
  Forall (fun c => ReferenceJson.is_number_char c = true)
    (list_ascii_of_string (NilEmpty.string_of_uint d)).
Proof. induction d; simpl; constructor; auto. Qed.

Lemma int_chars_are_number_chars (n : Z) :
  Forall (fun c => ReferenceJson.is_number_char c = true) (ReferenceJson.print_int n).
Proof.
  unfold ReferenceJson.print_int, ReferenceJson.chars.
  assert (Hu : forall d, Forall (fun c => ReferenceJson.is_number_char c = true)
                 (list_ascii_of_string (NilZero.string_of_uint d))).
  { intros d. destruct d; try apply uint_chars_are_digits.
    simpl. constructor; auto. }
  destruct (Z.to_int n) as [d|d]; simpl; [apply Hu|].
  constructor; [reflexivity | apply Hu].
Qed.

Lemma print_int_nonempty (n : Z) : ReferenceJson.print_int n <> [].
Proof.
  unfold ReferenceJson.print_int, ReferenceJson.chars.
  destruct (Z.to_int n) as [d|d]; simpl; [|discriminate].
  destruct d; simpl; discriminate.
Qed.

Lemma span_number_prefix (digits rest : list ascii) :
  Forall (fun c => ReferenceJson.is_number_char c = true) digits ->
  ends_number rest ->
  ReferenceJson.span_number (digits ++ rest) = (digits, rest).
Proof.
  intros Hd Hr. induction Hd as [|c digits Hc _ IH];
    cbn [app ReferenceJson.span_number].
  - destruct rest as [|c rest]; [reflexivity|].
    cbn [ReferenceJson.span_number]. unfold ends_number in Hr. now rewrite Hr.
  - now rewrite Hc, IH.
Qed.

Lemma to_int_proper (n : Z) :
  Z.to_int n <> Decimal.Pos Decimal.Nil /\ Z.to_int n <> Decimal.Neg Decimal.Nil.
Proof.
  destruct n as [|p|p]; simpl; split; try discriminate;
    intros H; injection H as H; now apply Unsigned.to_uint_nonnil in H.
Qed.

Lemma parse_number_print (n : Z) (rest : list ascii) :
  ends_number rest ->
  ReferenceJson.parse_number (ReferenceJson.print_int n ++ rest)
  = Some (VInt n, rest).
Proof.
  intros Hr. unfold ReferenceJson.parse_number.
  rewrite span_number_prefix by (auto using int_chars_are_number_chars).
  unfold ReferenceJson.print_int, ReferenceJson.chars.
  rewrite string_of_list_ascii_of_string.
  destruct (to_int_proper n) as [Hp Hn].
  rewrite NilZero.isi by assumption. now rewrite DecimalZ.of_to.
Qed.

(** *** Values *)

Lemma number_char_is_no_bracket (c : ascii) :
  ReferenceJson.is_number_char c = true ->
  Ascii.eqb c "]" = false /\ Ascii.eqb c "}" = false.
Proof.
  intros H. split.
  - destruct (Ascii.eqb_spec c "]") as [-> |]; [discriminate | reflexivity].
  - destruct (Ascii.eqb_spec c "}") as [-> |]; [discriminate | reflexivity].
Qed.

Lemma print_int_head (n : Z) :
  exists c r, ReferenceJson.print_int n = c :: r
              /\ ReferenceJson.is_number_char c = true.
Proof.
  pose proof (int_chars_are_number_chars n) as H.
  pose proof (print_int_nonempty n) as Hne.
  destruct (ReferenceJson.print_int n) as [|c r]; [congruence|].
  inversion H; subst. eauto.
Qed.

Lemma print_head (v : value) :
  ReferenceJson.serializable v = true ->
  exists c r, ReferenceJson.print v = c :: r
              /\ Ascii.eqb c "]" = false /\ Ascii.eqb c "}" = false.
Proof.
  destruct v as [|[|]|n|s|b|[|x l]|[|[k x] d]]; intros H;
    try discriminate;
    try (rewrite ?print_list_unfold, ?print_dict_unfold;
         do 2 eexists; repeat split; reflexivity).
  destruct (print_int_head n) as (c & r & E & Hc).
  exists c, r. split; [exact E|]. now apply number_char_is_no_bracket.
Qed.

Lemma list_tail_ends_number (l : list value) (rest : list ascii) :
  ends_number (print_list_tail l ++ rest).
Proof. destruct l; reflexivity. Qed.

Lemma dict_tail_ends_number (d : list (string * value)) (rest : list ascii) :
  ends_number (print_dict_tail d ++ rest).
Proof. destruct d as [|[k y] d]; reflexivity. Qed.

Lemma parse_list_tail_print (l : list value) :
  Forall (fun x => ReferenceJson.serializable x = true -> parses x) l ->
  Forall (fun x => ReferenceJson.serializable x = true) l ->
  forall fuel rest,
    List.length (print_list_tail l) <= fuel ->
    ReferenceJson.parse_list_tail fuel (print_list_tail l ++ rest) = Some (l, rest).
Proof.
  intros HP HS. induction HP as [|y l Hy _ IH]; intros fuel rest Hfuel.
  - destruct fuel; [simpl in Hfuel; lia | reflexivity].
  - inversion HS as [|? ? Hsy HSl]; subst.
    destruct fuel as [|fuel]; [simpl in Hfuel; lia|].
    cbn [print_list_tail] in *. cbn [List.length] in Hfuel.
    rewrite length_app in Hfuel.
    cbn [app ReferenceJson.parse_list_tail].
    replace (Ascii.eqb "," "]") with false by reflexivity.
    replace (Ascii.eqb "," ",") with true by reflexivity.
    rewrite <- app_assoc.
    rewrite (Hy Hsy) by (try apply list_tail_ends_number; lia).
    rewrite IH by (auto; lia). reflexivity.
Qed.

Lemma parse_dict_tail_print (d : list (string * value)) :
  Forall (fun kv => ReferenceJson.serializable (snd kv) = true -> parses (snd kv)) d ->
  Forall (fun kv => ReferenceJson.serializable (snd kv) = true) d ->
  forall fuel rest,
    List.length (print_dict_tail d) <= fuel ->
    ReferenceJson.parse_dict_tail fuel (print_dict_tail d ++ rest) = Some (d, rest).
Proof.
  intros HP HS. induction HP as [|[k y] d Hy _ IH]; intros fuel rest Hfuel.
  - destruct fuel; [simpl in Hfuel; lia | reflexivity].
  - inversion HS as [|? ? Hsy HSd]; subst. simpl in Hy, Hsy.
    destruct fuel as [|fuel]; [simpl in Hfuel; lia|].
    cbn [print_dict_tail] in *. cbn [List.length] in Hfuel.
    rewrite length_app in Hfuel. cbn [List.length] in Hfuel.
    rewrite length_app in Hfuel.
    cbn [app ReferenceJson.parse_dict_tail].
    replace (Ascii.eqb "," "}") with false by reflexivity.
    replace (Ascii.eqb "," ",") with true by reflexivity.
    rewrite <- app_assoc. cbn [app]. rewrite parse_key_print.
    rewrite <- app_assoc.
    rewrite (Hy Hsy) by (try apply dict_tail_ends_number; lia).
    rewrite IH by (auto; lia). reflexivity.
Qed.

Lemma parse_print (v : value) :
  ReferenceJson.serializable v = true -> parses v.
Proof.
  induction v as [|b|n|s|b|l IH|d IH] using value_nested_ind;
    intros Hs fuel rest Hfuel Hrest.
  - destruct fuel; [simpl in Hfuel; lia | reflexivity].
  - destruct fuel; [destruct b; simpl in Hfuel; lia | destruct b; reflexivity].
  - destruct (print_int_head n) as (c & r & E & Hc).
    destruct fuel; [cbn [ReferenceJson.print] in Hfuel; rewrite E in Hfuel;
                    simpl in Hfuel; lia|].
    cbn [ReferenceJson.print]. rewrite E.
    cbn [app ReferenceJson.parse_value]. rewrite Hc.
    change (c :: r ++ rest) with ((c :: r) ++ rest). rewrite <- E.
    now apply parse_number_print.
  - destruct fuel; [simpl in Hfuel; lia|].
    cbn [ReferenceJson.print]. unfold ReferenceJson.print_string.
    cbn [app]. rewrite <- app_assoc. cbn [app ReferenceJson.parse_value].
    replace (ReferenceJson.is_number_char ReferenceJson.quote) with false by reflexivity.
    replace (Ascii.eqb ReferenceJson.quote "n") with false by reflexivity.
    replace (Ascii.eqb ReferenceJson.quote "t") with false by reflexivity.
    replace (Ascii.eqb ReferenceJson.quote "f") with false by reflexivity.
    replace (Ascii.eqb ReferenceJson.quote ReferenceJson.quote) with true by reflexivity.
    rewrite parse_string_escape. unfold ReferenceJson.chars.
    now rewrite string_of_list_ascii_of_string.
  - discriminate.
  - destruct l as [|x l].
    + destruct fuel; [simpl in Hfuel; lia | reflexivity].
    + pose proof (serializable_list _ Hs) as HS.
      inversion HS as [|? ? Hsx HSl]; subst. inversion IH as [|? ? Hx IHl]; subst.
      rewrite print_list_unfold in *.
      destruct fuel as [|fuel]; [simpl in Hfuel; lia|].
      cbn [List.length] in Hfuel. rewrite length_app in Hfuel.
      destruct (print_head x Hsx) as (c & r & E & Hc1 & Hc2).
      cbn [app ReferenceJson.parse_value].
      replace (ReferenceJson.is_number_char "[") with false by reflexivity.
      replace (Ascii.eqb "[" "n") with false by reflexivity.
      replace (Ascii.eqb "[" "t") with false by reflexivity.
      replace (Ascii.eqb "[" "f") with false by reflexivity.
      replace (Ascii.eqb "[" ReferenceJson.quote) with false by reflexivity.
      replace (Ascii.eqb "[" "[") with true by reflexivity.
      rewrite <- app_assoc.
      remember (ReferenceJson.print x ++ print_list_tail l ++ rest) as text eqn:Et.
      assert (Ht : text = c :: (r ++ print_list_tail l ++ rest))
        by (rewrite Et, E; reflexivity).
      rewrite Ht at 1. rewrite Hc1. rewrite Et.
      rewrite (Hx Hsx) by (try apply list_tail_ends_number; lia).
      rewrite parse_list_tail_print by (auto; lia). reflexivity.
  - destruct d as [|[k x] d].
    + destruct fuel; [simpl in Hfuel; lia | reflexivity].
    + pose proof (serializable_dict _ Hs) as HS.
      inversion HS as [|? ? Hsx HSd]; subst. inversion IH as [|? ? Hx IHd]; subst.
      simpl in Hsx, Hx.
      rewrite print_dict_unfold in *.
      destruct fuel as [|fuel]; [simpl in Hfuel; lia|].
      cbn [List.length] in Hfuel. rewrite length_app in Hfuel.
      cbn [List.length] in Hfuel. rewrite length_app in Hfuel.
      cbn [app ReferenceJson.parse_value].
      replace (ReferenceJson.is_number_char "{") with false by reflexivity.
      replace (Ascii.eqb "{" "n") with false by reflexivity.
      replace (Ascii.eqb "{" "t") with false by reflexivity.
      replace (Ascii.eqb "{" "f") with false by reflexivity.
      replace (Ascii.eqb "{" ReferenceJson.quote) with false by reflexivity.
      replace (Ascii.eqb "{" "[") with false by reflexivity.
      replace (Ascii.eqb "{" "{") with true by reflexivity.
      rewrite <- app_assoc. cbn [app]. rewrite <- app_assoc.
      remember (ReferenceJson.print_string k ++
                ":"%char :: ReferenceJson.print x ++ print_dict_tail d ++ rest)
        as text eqn:Et.
      assert (Ht : exists r, text = ReferenceJson.quote :: r)
        by (rewrite Et; unfold ReferenceJson.print_string; cbn [app]; eauto).
      destruct Ht as [r Ht]. rewrite Ht at 1.
      replace (Ascii.eqb ReferenceJson.quote "}") with false by reflexivity.
      rewrite Et, parse_key_print.
      rewrite (Hx Hsx) by (try apply dict_tail_ends_number; lia).
      rewrite parse_dict_tail_print by (auto; lia). reflexivity.
Qed.

Lemma reference_loads_dumps (enc : encoder) (v : value) :
  ReferenceJson.serializable v = true ->
  exists text,
    ReferenceJson.reference_dumps enc v = Some text
    /\ ReferenceJson.reference_loads text = Some v.
Proof.
  intros Hs. unfold ReferenceJson.reference_dumps. rewrite Hs.
  eexists. split; [reflexivity|].
  unfold ReferenceJson.reference_loads, ReferenceJson.chars.
  rewrite list_ascii_of_string_of_list_ascii.
  pose proof (parse_print v Hs (List.length (ReferenceJson.print v)) []
                (le_n _) I) as H.
  rewrite app_nil_r in H. now rewrite H.
Qed.

Lemma reference_library_reliable : reliable ReferenceJson.library.
Proof.
  intros enc v Hv. apply reference_loads_dumps.
  now apply representable_serializable.
Qed.

(** ** Decoding inbound frames, encoding outbound ones *)

(** C5: with a JSON library that decodes what it encodes, [encode] of a
    stream name and a JSON-representable payload yields a text frame, and
    decoding the text of that frame gives back exactly
    [{"stream": stream, "payload": payload}]. *)
Theorem encode_round_trips (J : json_library) (stream : string) (payload : value) :
  reliable J ->
  json_representable payload ->
  let envelope := VDict [("stream", VStr stream); ("payload", payload)] in
  exists text,
    WebsocketDemultiplexer.encode J (VStr stream) payload
    = (Ok (VDict [("text", VStr text)]), [])
    /\ loads J text = Some envelope
    /\ result (json_loads J (VStr text)) = Ok envelope.
Proof.
  intros HJ Hp envelope.
  assert (Henv : json_representable envelope).
  { simpl. repeat split; auto. repeat constructor; simpl; intuition discriminate. }
  destruct (HJ DjangoJSONEncoder envelope Henv) as (text & Hd & Hl).
  exists text. unfold WebsocketDemultiplexer.encode, json_dumps, json_loads.
  fold envelope. rewrite Hd. simpl. rewrite Hl. auto.
Qed.

Lemma encode_round_trips_witness :
  exists text,
    WebsocketDemultiplexer.encode ReferenceJson.library (VStr "chat")
      (VDict [("msg", VStr "hi"); ("seen", VList [VInt 1; VInt (-20); VNone])])
    = (Ok (VDict [("text", VStr text)]), [])
    /\ loads ReferenceJson.library text
       = Some (VDict [("stream", VStr "chat");
                      ("payload",
                       VDict [("msg", VStr "hi");
                              ("seen", VList [VInt 1; VInt (-20); VNone])])])
    /\ result (json_loads ReferenceJson.library (VStr text))
       = Ok (VDict [("stream", VStr "chat");
                    ("payload",
                     VDict [("msg", VStr "hi");
                            ("seen", VList [VInt 1; VInt (-20); VNone])])]).
Proof.
  apply (encode_round_trips ReferenceJson.library "chat"
           (VDict [("msg", VStr "hi"); ("seen", VList [VInt 1; VInt (-20); VNone])])).
  - exact reference_library_reliable.
  - simpl. repeat split. repeat constructor; simpl; intuition discriminate.
Defined.

(** C6, as stated, fails on the class of the error: a binary-only frame
    makes the JSON consumer raise a plain [ValueError], the class of the
    routing and send errors, not the decoder's error; the decoder's own
    error is what a malformed text frame raises. *)
Lemma binary_frame_error_class_counterexample :
  let call :=
    JsonWebsocketConsumer.raw_receive ReferenceJson.library
      JsonWebsocketConsumer.receive chat_consumer binary_frame [] in
  message_contains binary_frame "text" = false
  /\ call = (Raise (ValueError "No text section for incoming WebSocket frame!"), [])
  /\ (forall doc, result call <> Raise (JSONDecodeError doc))
  /\ result (JsonWebsocketConsumer.raw_receive ReferenceJson.library
               JsonWebsocketConsumer.receive chat_consumer malformed_frame [])
     = Raise (JSONDecodeError "{").
Proof. repeat split. intros doc. discriminate. Qed.

(** C6 (amended): a frame without a text section makes the JSON consumer
    raise [ValueError] (no text section) before anything else happens:
    whatever the JSON library and whatever [receive] is bound to, nothing is
    handed to the decoder, and no callback runs. *)
Theorem binary_frame_is_refused (J : json_library)
    (receive_method : consumer -> value -> dict -> M unit)
    (self : consumer) (m : message) (kwargs : dict) :
  message_contains m "text" = false ->
  let call := JsonWebsocketConsumer.raw_receive J receive_method self m kwargs in
  call = (Raise (ValueError "No text section for incoming WebSocket frame!"), [])
  /\ (forall arg, ~ In (JsonLoads arg) (trace call)).
Proof.
  intros Htext call.
  assert (E : call
    = (Raise (ValueError "No text section for incoming WebSocket frame!"), [])).
  { unfold call, JsonWebsocketConsumer.raw_receive. now rewrite Htext. }
  split; [exact E|]. intros arg. rewrite E. intros [].
Qed.

Lemma binary_frame_is_refused_witness :
  WebsocketDemultiplexer.raw_receive ReferenceJson.library chat_consumer
    binary_frame []
  = (Raise (ValueError "No text section for incoming WebSocket frame!"), []).
Proof.
  apply (binary_frame_is_refused ReferenceJson.library
           WebsocketDemultiplexer.receive chat_consumer binary_frame []).
  reflexivity.
Defined.

(** The whole receive path of the demultiplexer on a text frame, with the
    reference library: the text is decoded once and the payload is routed;
    no user-level callback runs. *)
Example demultiplexer_raw_receive_routes :
  exists text,
    dumps ReferenceJson.library JSONEncoder
      (VDict [("stream", VStr "chat"); ("payload", VDict [("msg", VStr "hi")])])
    = Some text
    /\ WebsocketDemultiplexer.raw_receive ReferenceJson.library chat_consumer
         {| channel := "websocket.receive";
            content := [ ("reply_channel", VStr "websocket.send!abc");
                         ("path", VStr "/chat/");
                         ("text", VStr text) ] |} []
       = (Ok tt, [JsonLoads (VStr text);
                  ChannelSend "chat-queue"
                    (VDict [("msg", VStr "hi");
                            ("reply_channel", VStr "websocket.send!abc")])]).
Proof. eexists. split; [vm_compute; reflexivity | vm_compute; reflexivity]. Qed.

(** * Further properties of the consumers *)

Lemma dict_mem_as_get (d : dict) (key : string) :
  dict_mem d key = match dict_get d key with Some _ => true | None => false end.
Proof.
  induction d as [|[k w] d IH]; simpl; [reflexivity|].
  destruct (String.eqb k key); [reflexivity | exact IH].
Qed.

(** The JSON consumer on a text frame: the text goes through the decoder
    once, and [receive] runs on what it decodes to, or not at all. *)
Lemma json_raw_receive_text (J : json_library)
    (receive_method : consumer -> value -> dict -> M unit)
    (self : consumer) (m : message) (kwargs : dict) (text : string) :
  dict_get (content m) "text" = Some (VStr text) ->
  JsonWebsocketConsumer.raw_receive J receive_method self m kwargs
  = match loads J text with
    | Some v => (result (receive_method self v kwargs),
                 JsonLoads (VStr text) :: trace (receive_method self v kwargs))
    | None => (Raise (JSONDecodeError text), [JsonLoads (VStr text)])
    end.
Proof.
  intros Htext. unfold JsonWebsocketConsumer.raw_receive, message_contains.
  rewrite dict_mem_as_get, Htext.
  unfold message_getitem, dict_getitem, json_loads. rewrite Htext.
  cbn [bind ret emit app]. destruct (loads J text) as [v|]; [|reflexivity].
  cbn [bind ret app]. destruct (receive_method self v kwargs) as [[[]|e] t];
    reflexivity.
Qed.

Lemma envelope_representable (stream : string) (payload : value) :
  json_representable payload ->
  json_representable (VDict [("stream", VStr stream); ("payload", payload)]).
Proof.
  intros Hp. simpl. repeat split; auto.
  repeat constructor; simpl; intuition discriminate.
Qed.

(** ** The base consumer *)

(** X1: the base [raw_receive] hands the frame to [receive] undecoded: a
    frame with a [text] entry as [text] (a [bytes] entry beside it is not
    looked at), a frame with only [bytes] as [bytes]; a frame with neither
    raises [KeyError] on [bytes] and [receive] is not called. *)
Theorem base_raw_receive_dispatch (self : consumer) (m : message) (kwargs : dict) :
  (forall text, dict_get (content m) "text" = Some text ->
     WebsocketConsumer.raw_receive self m kwargs
     = (Ok tt, [UserReceive text VNone kwargs]))
  /\ (forall bytes,
        dict_get (content m) "text" = None ->
        dict_get (content m) "bytes" = Some bytes ->
        WebsocketConsumer.raw_receive self m kwargs
        = (Ok tt, [UserReceive VNone bytes kwargs]))
  /\ (dict_get (content m) "text" = None ->
      dict_get (content m) "bytes" = None ->
      WebsocketConsumer.raw_receive self m kwargs
      = (Raise (KeyError (VStr "bytes")), [])).
Proof.
  unfold WebsocketConsumer.raw_receive, message_contains, message_getitem,
    dict_getitem.
  rewrite dict_mem_as_get. repeat split.
  - intros text Ht. rewrite Ht. reflexivity.
  - intros bytes Ht Hb. rewrite Ht, Hb. reflexivity.
  - intros Ht Hb. rewrite Ht, Hb. reflexivity.
Qed.

Lemma base_raw_receive_dispatch_witness :
  WebsocketConsumer.raw_receive chat_consumer chat_frame []
  = (Ok tt, [UserReceive (VStr "{}") VNone []])
  /\ WebsocketConsumer.raw_receive chat_consumer binary_frame []
     = (Ok tt, [UserReceive VNone (VBytes [Byte.x7b; Byte.x7d]) []])
  /\ WebsocketConsumer.raw_receive chat_consumer bare_disconnect []
     = (Raise (KeyError (VStr "bytes")), []).
Proof.
  destruct (base_raw_receive_dispatch chat_consumer chat_frame []) as (Ht & _ & _).
  destruct (base_raw_receive_dispatch chat_consumer binary_frame []) as (_ & Hb & _).
  destruct (base_raw_receive_dispatch chat_consumer bare_disconnect [])
    as (_ & _ & Hn).
  split; [apply Ht; reflexivity|].
  split; [apply Hb; reflexivity | apply Hn; reflexivity].
Defined.

(** X2: [close] writes the frame [{"close": True}] to the connection's reply
    channel, and that is a frame [send] never writes: whatever its
    arguments, [send] raises or sends a frame that carries data. *)
Theorem close_is_not_a_send (self : consumer) (rc : string) :
  reply_channel (self_message self) = Some rc ->
  WebsocketConsumer.close self
  = (Ok tt, [ReplySend rc (VDict [("close", VBool true)])])
  /\ forall text bytes close,
       WebsocketConsumer.send self text bytes close <> WebsocketConsumer.close self.
Proof.
  intros Hrc. unfold WebsocketConsumer.close, WebsocketConsumer.send,
    reply_channel_send. rewrite Hrc. split; [reflexivity|].
  intros text bytes close.
  destruct (is_not_none text), (is_not_none bytes), close; simpl;
    intros H; discriminate H.
Qed.

Lemma close_is_not_a_send_witness :
  WebsocketConsumer.close chat_consumer
  = (Ok tt, [ReplySend "websocket.send!abc" (VDict [("close", VBool true)])])
  /\ forall text bytes close,
       WebsocketConsumer.send chat_consumer text bytes close
       <> WebsocketConsumer.close chat_consumer.
Proof.
  apply (close_is_not_a_send chat_consumer "websocket.send!abc"). reflexivity.
Defined.

(** X3: [send] and [group_send] agree: for the same arguments they end the
    same way and hand over the same frame, one to the reply channel, the
    other to the group. *)
Theorem send_and_group_send_agree (self : consumer) (rc name : string)
    (text bytes : value) (close : bool) :
  reply_channel (self_message self) = Some rc ->
  result (WebsocketConsumer.send self text bytes close)
  = result (WebsocketConsumer.group_send name text bytes close)
  /\ map sent_frame (trace (WebsocketConsumer.send self text bytes close))
     = map sent_frame (trace (WebsocketConsumer.group_send name text bytes close)).
Proof.
  intros Hrc. unfold WebsocketConsumer.send, WebsocketConsumer.group_send,
    reply_channel_send. rewrite Hrc.
  destruct (is_not_none text), (is_not_none bytes), close; split; reflexivity.
Qed.

Lemma send_and_group_send_agree_witness :
  result (WebsocketConsumer.send chat_consumer (VStr "a") VNone true)
  = result (WebsocketConsumer.group_send "room" (VStr "a") VNone true)
  /\ map sent_frame (trace (WebsocketConsumer.send chat_consumer (VStr "a") VNone true))
     = map sent_frame
         (trace (WebsocketConsumer.group_send "room" (VStr "a") VNone true)).
Proof.
  apply (send_and_group_send_agree chat_consumer "websocket.send!abc" "room").
  reflexivity.
Defined.

(** X4: the decorators of [get_handler] nest in a fixed order: the handler
    the base class selects is wrapped in the HTTP-user transfer when
    [http_user] is set, and the ordering decorator goes outermost, strict
    when [strict_ordering] is set (whatever [slight_ordering] says), slight
    when only [slight_ordering] is set, none otherwise. *)
Theorem get_handler_decorator_order (self : consumer) (m : message) (h : handler) :
  snd (WebsocketConsumer.get_handler self m) = Ok h ->
  exists h0,
    BaseConsumer.get_handler WebsocketConsumer.method_mapping
      (fst (WebsocketConsumer.get_handler self m)) m = Ok h0
    /\ let inner :=
         if http_user (cls self) then channel_session_user_from_http h0 else h0 in
       h = (if strict_ordering (cls self) then enforce_ordering inner false
            else if slight_ordering (cls self) then enforce_ordering inner true
            else inner).
Proof.
  unfold WebsocketConsumer.get_handler.
  destruct (dict_get (content m) "path") as [p|];
    [|destruct (http_user (cls self)); discriminate].
  destruct (http_user (cls self)) eqn:Hu; cbn [cls self_message self_kwargs
    self_path self_channel_session_user];
    match goal with
    | |- context [BaseConsumer.get_handler ?mm ?s ?m'] =>
        destruct (BaseConsumer.get_handler mm s m') as [h0|e] eqn:Hb
    end; cbn [fst snd cls]; rewrite ?Hu;
    destruct (strict_ordering (cls self)), (slight_ordering (cls self));
    cbn [fst snd]; intros H; try discriminate H; injection H as <-;
    exists h0; (split; [exact Hb | reflexivity]).
Qed.

Lemma get_handler_decorator_order_witness :
  exists h0,
    BaseConsumer.get_handler WebsocketConsumer.method_mapping
      (fst (WebsocketConsumer.get_handler room_consumer chat_connect)) chat_connect
    = Ok h0
    /\ enforce_ordering (BoundMethod "raw_connect") false
       = enforce_ordering h0 false.
Proof.
  apply (get_handler_decorator_order room_consumer chat_connect
           (enforce_ordering (BoundMethod "raw_connect") false)).
  reflexivity.
Defined.

(** X5: [get_handler] turns the instance's [channel_session_user] on when
    [http_user] is set and otherwise leaves it as it was; it does so before
    it reads the path, so also when it raises.  The class and the keyword
    arguments of the instance are not touched. *)
Theorem get_handler_instance_effects (self : consumer) (m : message) :
  let self' := fst (WebsocketConsumer.get_handler self m) in
  self_channel_session_user self'
  = (http_user (cls self) || self_channel_session_user self)%bool
  /\ cls self' = cls self
  /\ self_kwargs self' = self_kwargs self.
Proof.
  unfold WebsocketConsumer.get_handler.
  destruct (dict_get (content m) "path") as [p|];
    destruct (http_user (cls self)) eqn:Hu; cbn [cls];
    try match goal with
        | |- context [BaseConsumer.get_handler ?mm ?s ?m'] =>
            destruct (BaseConsumer.get_handler mm s m')
        end;
    rewrite ?Hu;
    destruct (strict_ordering (cls self)), (slight_ordering (cls self));
    repeat split.
Qed.

(** ** The JSON consumer *)

(** X6: on a text frame the JSON consumer hands the text to the decoder
    exactly once; when it decodes, [receive] is called once with the decoded
    content; when it does not, the decoder's error is raised and [receive]
    is not called.  A [bytes] entry beside the text is not looked at. *)
Theorem json_raw_receive_decodes_text (J : json_library) (self : consumer)
    (m : message) (kwargs : dict) (text : string) :
  dict_get (content m) "text" = Some (VStr text) ->
  (forall v, loads J text = Some v ->
     JsonWebsocketConsumer.raw_receive J JsonWebsocketConsumer.receive self m kwargs
     = (Ok tt, [JsonLoads (VStr text); UserReceiveJson v kwargs]))
  /\ (loads J text = None ->
      forall receive_method,
        JsonWebsocketConsumer.raw_receive J receive_method self m kwargs
        = (Raise (JSONDecodeError text), [JsonLoads (VStr text)])).
Proof.
  intros Htext. split.
  - intros v Hv. rewrite (json_raw_receive_text _ _ _ _ _ _ Htext), Hv. reflexivity.
  - intros Hnone receive_method.
    rewrite (json_raw_receive_text _ _ _ _ _ _ Htext), Hnone. reflexivity.
Qed.

Lemma json_raw_receive_decodes_text_witness :
  JsonWebsocketConsumer.raw_receive ReferenceJson.library
    JsonWebsocketConsumer.receive chat_consumer chat_frame []
  = (Ok tt, [JsonLoads (VStr "{}"); UserReceiveJson (VDict []) []])
  /\ JsonWebsocketConsumer.raw_receive ReferenceJson.library
       JsonWebsocketConsumer.receive chat_consumer malformed_frame []
     = (Raise (JSONDecodeError "{"), [JsonLoads (VStr "{")]).
Proof.
  destruct (json_raw_receive_decodes_text ReferenceJson.library chat_consumer
              chat_frame [] "{}" eq_refl) as [Hok _].
  destruct (json_raw_receive_decodes_text ReferenceJson.library chat_consumer
              malformed_frame [] "{" eq_refl) as [_ Hbad].
  split; [apply Hok; reflexivity | apply Hbad; reflexivity].
Defined.

(** X7: the JSON consumer's [send] and [group_send] encode first: when the
    encoder refuses the content they raise its [TypeError] and nothing is
    sent; otherwise they send exactly one frame, whose only data is the
    encoded text (with [close] in front of it when requested), never a
    [bytes] frame and never the text-or-bytes [ValueError]. *)
Theorem json_send_encodes_first (J : json_library) (self : consumer)
    (rc name : string) (content : value) (close : bool) :
  reply_channel (self_message self) = Some rc ->
  match dumps J JSONEncoder content with
  | Some text =>
      JsonWebsocketConsumer.send J self content close
      = (Ok tt, [ReplySend rc (VDict (close_entry close ++ [("text", VStr text)]))])
      /\ JsonWebsocketConsumer.group_send J name content close
         = (Ok tt, [GroupSend name (VDict (close_entry close ++ [("text", VStr text)]))])
  | None =>
      JsonWebsocketConsumer.send J self content close
      = (Raise (TypeError "Object is not JSON serializable"), [])
      /\ JsonWebsocketConsumer.group_send J name content close
         = (Raise (TypeError "Object is not JSON serializable"), [])
  end.
Proof.
  intros Hrc. unfold JsonWebsocketConsumer.send, JsonWebsocketConsumer.group_send,
    json_dumps, WebsocketConsumer.send, WebsocketConsumer.group_send,
    reply_channel_send.
  destruct (dumps J JSONEncoder content) as [text|]; [|split; reflexivity].
  rewrite Hrc. destruct close; split; reflexivity.
Qed.

Lemma json_send_encodes_first_witness :
  JsonWebsocketConsumer.send ReferenceJson.library chat_consumer
    (VBytes [Byte.x62]) true
  = (Raise (TypeError "Object is not JSON serializable"), [])
  /\ JsonWebsocketConsumer.group_send ReferenceJson.library "room"
       (VBytes [Byte.x62]) true
     = (Raise (TypeError "Object is not JSON serializable"), []).
Proof.
  apply (json_send_encodes_first ReferenceJson.library chat_consumer
           "websocket.send!abc" "room" (VBytes [Byte.x62]) true).
  reflexivity.
Defined.

(** X8: what the JSON consumer sends, a JSON consumer receives: with a JSON
    library that decodes what it encodes, [send] of a JSON-representable
    content writes one text frame, and any JSON consumer that gets a frame
    with that text calls [receive] with exactly that content. *)
Theorem json_send_then_receive (J : json_library) (self : consumer) (rc : string)
    (data : value) (close : bool) :
  reliable J ->
  json_representable data ->
  reply_channel (self_message self) = Some rc ->
  exists text,
    JsonWebsocketConsumer.send J self data close
    = (Ok tt, [ReplySend rc (VDict (close_entry close ++ [("text", VStr text)]))])
    /\ forall (peer : consumer) (m : message) (kwargs : dict),
         dict_get (content m) "text" = Some (VStr text) ->
         JsonWebsocketConsumer.raw_receive J JsonWebsocketConsumer.receive
           peer m kwargs
         = (Ok tt, [JsonLoads (VStr text); UserReceiveJson data kwargs]).
Proof.
  intros HJ Hdata Hrc. destruct (HJ JSONEncoder data Hdata) as (text & Hd & Hl).
  exists text. split.
  - unfold JsonWebsocketConsumer.send, json_dumps, WebsocketConsumer.send,
      reply_channel_send. rewrite Hd, Hrc. destruct close; reflexivity.
  - intros peer m kwargs Htext.
    rewrite (json_raw_receive_text _ _ _ _ _ _ Htext), Hl. reflexivity.
Qed.

Lemma json_send_then_receive_witness :
  exists text,
    JsonWebsocketConsumer.send ReferenceJson.library chat_consumer
      (VList [VStr "hi"; VInt 7]) false
    = (Ok tt, [ReplySend "websocket.send!abc"
                 (VDict (close_entry false ++ [("text", VStr text)]))])
    /\ forall (peer : consumer) (m : message) (kwargs : dict),
         dict_get (content m) "text" = Some (VStr text) ->
         JsonWebsocketConsumer.raw_receive ReferenceJson.library
           JsonWebsocketConsumer.receive peer m kwargs
         = (Ok tt, [JsonLoads (VStr text);
                    UserReceiveJson (VList [VStr "hi"; VInt 7]) kwargs]).
Proof.
  apply (json_send_then_receive ReferenceJson.library chat_consumer
           "websocket.send!abc" (VList [VStr "hi"; VInt 7]) false).
  - exact reference_library_reliable.
  - simpl. tauto.
  - reflexivity.
Defined.

(** ** The demultiplexer *)

(** What [receive] can do: raise having sent nothing, or make one send, to
    the destination the whitelist gives for the content's stream, of an
    object that carries the connection's reply channel. *)
Lemma demultiplexer_receive_cases (self : consumer) (decoded : value) (kwargs : dict) :
  (exists e, WebsocketDemultiplexer.receive self decoded kwargs = (Raise e, []))
  \/ (exists s destination p,
        In (s, destination) (mapping (cls self))
        /\ dict_get p "reply_channel"
           = dict_get (content (self_message self)) "reply_channel"
        /\ WebsocketDemultiplexer.receive self decoded kwargs
           = (Ok tt, [ChannelSend destination (VDict p)])).
Proof.
  unfold WebsocketDemultiplexer.receive.
  destruct decoded as [| | | | | |c]; try (left; eexists; reflexivity).
  destruct (dict_mem c "stream" && dict_mem c "payload") eqn:Hkeys;
    [|left; eexists; reflexivity].
  apply andb_true_iff in Hkeys as [Hm1 Hm2].
  apply dict_mem_get in Hm1 as [stream Hs]. apply dict_mem_get in Hm2 as [payload Hp].
  unfold dict_getitem, message_getitem, dict_getitem. rewrite Hs, Hp.
  destruct stream as [| | |s| | |]; try (left; eexists; reflexivity).
  cbn [bind ret WebsocketDemultiplexer.mapping_contains app].
  destruct (existsb (fun kv => String.eqb (fst kv) s) (mapping (cls self))) eqn:Hw;
    [|left; eexists; reflexivity].
  apply whitelisted_find in Hw as (k & destination & Hf).
  destruct payload as [| | | | | |p]; try (left; eexists; reflexivity).
  destruct (dict_get (content (self_message self)) "reply_channel") as [rc|] eqn:Hrc;
    [|left; eexists; reflexivity].
  right. exists k, destination, (dict_set p "reply_channel" rc).
  split; [apply find_some in Hf; tauto|].
  split; [apply dict_get_set_same|].
  cbn [bind ret WebsocketDemultiplexer.mapping_getitem app]. rewrite Hf. reflexivity.
Qed.

(** X9: the whitelist bounds what a frame can reach.  Whatever arrives, the
    demultiplexer's receive path calls the decoder at most once and sends at
    most once, and a send goes to a destination listed in the mapping and
    carries the connection's reply channel; there is no other call. *)
Theorem demultiplexer_reaches_only_mapped_destinations (J : json_library)
    (self : consumer) (m : message) (kwargs : dict) :
  let t := trace (WebsocketDemultiplexer.raw_receive J self m kwargs) in
  t = []
  \/ (exists arg, t = [JsonLoads arg])
  \/ (exists arg s destination p,
        In (s, destination) (mapping (cls self))
        /\ dict_get p "reply_channel"
           = dict_get (content (self_message self)) "reply_channel"
        /\ t = [JsonLoads arg; ChannelSend destination (VDict p)]).
Proof.
  unfold WebsocketDemultiplexer.raw_receive, JsonWebsocketConsumer.raw_receive,
    message_contains.
  rewrite dict_mem_as_get. unfold message_getitem, dict_getitem.
  destruct (dict_get (content m) "text") as [text|]; [|left; reflexivity].
  unfold json_loads. cbn [bind ret emit app].
  destruct text as [| | |text| | |]; try (right; left; eexists; reflexivity).
  destruct (loads J text) as [v|]; [|right; left; eexists; reflexivity].
  cbn [bind ret app].
  destruct (demultiplexer_receive_cases self v kwargs)
    as [[e He] | (s & destination & p & Hin & Hrc & Hsend)].
  - rewrite He. right; left; eexists; reflexivity.
  - rewrite Hsend. right; right. exists (VStr text), s, destination, p.
    repeat split; assumption.
Qed.

(** X10: with an empty mapping, which is what the class ships with, the
    demultiplexer routes nothing: [receive] raises for every content and
    sends nothing. *)
Theorem empty_mapping_routes_nothing (self : consumer) (decoded : value)
    (kwargs : dict) :
  mapping (cls self) = [] ->
  exists e, WebsocketDemultiplexer.receive self decoded kwargs = (Raise e, []).
Proof.
  intros Hmap.
  destruct (demultiplexer_receive_cases self decoded kwargs)
    as [He | (s & destination & p & Hin & _)]; [exact He|].
  rewrite Hmap in Hin. destruct Hin.
Qed.

Lemma empty_mapping_routes_nothing_witness :
  exists e,
    WebsocketDemultiplexer.receive (BaseConsumer.init default_class chat_frame [])
      (VDict [("stream", VStr "chat"); ("payload", VDict [("msg", VStr "hi")])]) []
    = (Raise e, []).
Proof.
  apply (empty_mapping_routes_nothing (BaseConsumer.init default_class chat_frame [])).
  reflexivity.
Defined.

(** X11: [receive] reads the [stream] and the [payload] of the envelope and
    nothing else: two contents that agree on those two entries, whatever
    other entries they hold and in whatever order, are treated alike, and
    the keyword arguments play no part. *)
Theorem receive_reads_stream_and_payload_only (self : consumer) (c1 c2 : dict)
    (kwargs1 kwargs2 : dict) :
  dict_get c1 "stream" = dict_get c2 "stream" ->
  dict_get c1 "payload" = dict_get c2 "payload" ->
  WebsocketDemultiplexer.receive self (VDict c1) kwargs1
  = WebsocketDemultiplexer.receive self (VDict c2) kwargs2.
Proof.
  intros Hs Hp. unfold WebsocketDemultiplexer.receive, dict_getitem.
  rewrite !dict_mem_as_get, Hs, Hp. reflexivity.
Qed.

Lemma receive_reads_stream_and_payload_only_witness :
  WebsocketDemultiplexer.receive chat_consumer
    (VDict [("stream", VStr "chat"); ("payload", VDict [("msg", VStr "hi")])]) []
  = WebsocketDemultiplexer.receive chat_consumer
      (VDict [("id", VInt 7); ("payload", VDict [("msg", VStr "hi")]);
              ("stream", VStr "chat"); ("reply_channel", VStr "elsewhere")])
      [("room", VStr "lobby")].
Proof.
  apply (receive_reads_stream_and_payload_only chat_consumer); reflexivity.
Defined.

(** X12: what one demultiplexer sends on a stream, another routes: with a
    JSON library that decodes what it encodes, [send] of a stream name and a
    JSON-representable object writes one text frame; a demultiplexer that
    whitelists the stream and gets a frame with that text sends the object,
    with its own connection's reply channel written in, to the mapped
    destination. *)
Theorem demultiplexer_send_then_receive (J : json_library)
    (sender receiver : consumer) (rc : string) (rc' : value)
    (stream k destination : string) (p : dict) :
  reliable J ->
  json_representable (VDict p) ->
  reply_channel (self_message sender) = Some rc ->
  find (fun kv => String.eqb (fst kv) stream) (mapping (cls receiver))
  = Some (k, destination) ->
  dict_get (content (self_message receiver)) "reply_channel" = Some rc' ->
  exists text,
    WebsocketDemultiplexer.send J sender (VStr stream) (VDict p)
    = (Ok tt, [ReplySend rc (VDict [("text", VStr text)])])
    /\ forall (m : message) (kwargs : dict),
         dict_get (content m) "text" = Some (VStr text) ->
         WebsocketDemultiplexer.raw_receive J receiver m kwargs
         = (Ok tt, [JsonLoads (VStr text);
                    ChannelSend destination (VDict (dict_set p "reply_channel" rc'))]).
Proof.
  intros HJ Hp Hrc Hfind Hrc'.
  destruct (HJ DjangoJSONEncoder _ (envelope_representable stream _ Hp))
    as (text & Hd & Hl).
  exists text. split.
  - unfold WebsocketDemultiplexer.send, WebsocketDemultiplexer.encode, json_dumps,
      reply_channel_send. rewrite Hd, Hrc. reflexivity.
  - intros m kwargs Htext. unfold WebsocketDemultiplexer.raw_receive.
    rewrite (json_raw_receive_text _ _ _ _ _ _ Htext), Hl.
    erewrite receive_routes; try eassumption; reflexivity.
Qed.

Lemma demultiplexer_send_then_receive_witness :
  exists text,
    WebsocketDemultiplexer.send ReferenceJson.library chat_consumer
      (VStr "chat") (VDict [("msg", VStr "hi")])
    = (Ok tt, [ReplySend "websocket.send!abc" (VDict [("text", VStr text)])])
    /\ forall (m : message) (kwargs : dict),
         dict_get (content m) "text" = Some (VStr text) ->
         WebsocketDemultiplexer.raw_receive ReferenceJson.library chat_consumer
           m kwargs
         = (Ok tt, [JsonLoads (VStr text);
                    ChannelSend "chat-queue"
                      (VDict (dict_set [("msg", VStr "hi")] "reply_channel"
                                (VStr "websocket.send!abc")))]).
Proof.
  apply (demultiplexer_send_then_receive ReferenceJson.library chat_consumer
           chat_consumer "websocket.send!abc" (VStr "websocket.send!abc")
           "chat" "chat" "chat-queue" [("msg", VStr "hi")]).
  - exact reference_library_reliable.
  - simpl. repeat split. repeat constructor. simpl. tauto.
  - reflexivity.
  - reflexivity.
  - reflexivity.
Defined.

(** X13: [send] does not check what [receive] checks.  A payload that is
    not an object, or a stream that is not whitelisted, is encoded and sent
    all the same; the demultiplexer that gets the frame decodes it and then
    refuses it, with the payload or the stream error, without routing. *)
Theorem demultiplexer_send_is_unchecked (J : json_library)
    (sender receiver : consumer) (rc stream : string) (payload : value) :
  reliable J ->
  json_representable payload ->
  reply_channel (self_message sender) = Some rc ->
  exists text,
    WebsocketDemultiplexer.send J sender (VStr stream) payload
    = (Ok tt, [ReplySend rc (VDict [("text", VStr text)])])
    /\ forall (m : message) (kwargs : dict),
         dict_get (content m) "text" = Some (VStr text) ->
         (whitelisted (mapping (cls receiver)) (VStr stream) = false ->
          WebsocketDemultiplexer.raw_receive J receiver m kwargs
          = (Raise not_mapped_error, [JsonLoads (VStr text)]))
         /\ (whitelisted (mapping (cls receiver)) (VStr stream) = true ->
             is_dict payload = false ->
             WebsocketDemultiplexer.raw_receive J receiver m kwargs
             = (Raise payload_error, [JsonLoads (VStr text)])).
Proof.
  intros HJ Hp Hrc.
  destruct (HJ DjangoJSONEncoder _ (envelope_representable stream _ Hp))
    as (text & Hd & Hl).
  exists text. split.
  - unfold WebsocketDemultiplexer.send, WebsocketDemultiplexer.encode, json_dumps,
      reply_channel_send. rewrite Hd, Hrc. reflexivity.
  - intros m kwargs Htext. unfold WebsocketDemultiplexer.raw_receive.
    rewrite (json_raw_receive_text _ _ _ _ _ _ Htext), Hl.
    unfold WebsocketDemultiplexer.receive, whitelisted. cbn [dict_mem dict_getitem
      dict_get String.eqb Ascii.eqb Bool.eqb andb bind ret app
      WebsocketDemultiplexer.mapping_contains].
    split.
    + intros Hw. rewrite Hw. reflexivity.
    + intros Hw Hd'. rewrite Hw. destruct payload; try discriminate; reflexivity.
Qed.

Lemma demultiplexer_send_is_unchecked_witness :
  exists text,
    WebsocketDemultiplexer.send ReferenceJson.library chat_consumer
      (VStr "chat") (VStr "hi")
    = (Ok tt, [ReplySend "websocket.send!abc" (VDict [("text", VStr text)])])
    /\ forall (m : message) (kwargs : dict),
         dict_get (content m) "text" = Some (VStr text) ->
         (whitelisted (mapping (cls chat_consumer)) (VStr "chat") = false ->
          WebsocketDemultiplexer.raw_receive ReferenceJson.library chat_consumer
            m kwargs
          = (Raise not_mapped_error, [JsonLoads (VStr text)]))
         /\ (whitelisted (mapping (cls chat_consumer)) (VStr "chat") = true ->
             is_dict (VStr "hi") = false ->
             WebsocketDemultiplexer.raw_receive ReferenceJson.library chat_consumer
               m kwargs
             = (Raise payload_error, [JsonLoads (VStr text)])).
Proof.
  apply (demultiplexer_send_is_unchecked ReferenceJson.library chat_consumer
           chat_consumer "websocket.send!abc" "chat" (VStr "hi")).
  - exact reference_library_reliable.
  - exact I.
  - reflexivity.
Defined.

(** X14: the demultiplexer's [group_send] fans out to the named group the
    frame [encode] builds, with [close] added after the text when it is
    requested; when the encoder refuses the payload its error is raised and
    nothing is sent.  Unlike [send], it touches no reply channel. *)
Theorem demultiplexer_group_send_frame (J : json_library) (name : string)
    (stream payload : value) (close : bool) :
  match dumps J DjangoJSONEncoder (VDict [("stream", stream); ("payload", payload)]) with
  | Some text =>
      WebsocketDemultiplexer.encode J stream payload
      = (Ok (VDict [("text", VStr text)]), [])
      /\ WebsocketDemultiplexer.group_send J name stream payload close
         = (Ok tt, [GroupSend name (VDict ([("text", VStr text)] ++ close_entry close))])
  | None =>
      WebsocketDemultiplexer.group_send J name stream payload close
      = (Raise (TypeError "Object is not JSON serializable"), [])
  end.
Proof.
  unfold WebsocketDemultiplexer.group_send, WebsocketDemultiplexer.encode, json_dumps.
  destruct (dumps J DjangoJSONEncoder _) as [text|]; [|reflexivity].
  destruct close; split; reflexivity.
Qed.
